(** * Freescale LINFlex UART model (hw/char/fsl-linflex.c)

    A shallow embedding of the register protocol of the device: the guest
    write and read handlers, the interrupt aggregation, the receive hooks of
    the character backend and the three reset phases, followed by the
    properties of the register protocol.

    Registers are [uint32_t] slots, modelled as [Z] with the wrap-around of
    every store written out.  Calls into QEMU (interrupt line, character
    backend, log) are recorded as a trace of events. *)

From Stdlib Require Import ZArith Lia Bool List.
From stdpp Require Import base list.

Local Open Scope Z_scope.

(** ** Machine integers *)

(** Conversion to [uint32_t]. *)
Definition u32 (x : Z) : Z := x mod 2 ^ 32.

(** Conversion to [unsigned char] / [uint8_t]. *)
Definition u8 (x : Z) : Z := x mod 2 ^ 8.

(** [~x] on a [uint64_t] operand. *)
Definition not64 (x : Z) : Z := Z.lxor x (Z.ones 64).

Definition is_u32 (x : Z) : Prop := 0 <= x < 2 ^ 32.

(** The truth value of a C integer used as a condition. *)
Definition nonzero (x : Z) : bool := negb (x =? 0).

(** ** The register file *)

(** Modelled from the spec: the [LinflexRegs] enumeration is declared in
    hw/char/fsl-linflex.h, which is not among the sources; the order of its
    members is the one of the register table (index = offset / 4), which is
    also the order of the case labels and of the reset assignments in
    fsl-linflex.c. *)
Inductive LinflexRegs : Set :=
  | LINFLEX_LINCR1
  | LINFLEX_LINIER
  | LINFLEX_LINSR
  | LINFLEX_LINESR
  | LINFLEX_UARTCR
  | LINFLEX_UARTSR
  | LINFLEX_LINTCSR
  | LINFLEX_LINOCR
  | LINFLEX_LINTOCR
  | LINFLEX_LINFBRR
  | LINFLEX_LINIBRR
  | LINFLEX_LINCFR
  | LINFLEX_LINCR2
  | LINFLEX_BIDR
  | LINFLEX_BDRL
  | LINFLEX_BDRM
  | LINFLEX_GCR
  | LINFLEX_UARTPTO
  | LINFLEX_UARTCTO
  | LINFLEX_DMATXE
  | LINFLEX_DMARXE.

#[local] Instance LinflexRegs_eq_dec : EqDecision LinflexRegs.
Proof. intros x y. unfold Decision. decide equality. Defined.

(** Modelled from the spec: the number of slots of [regs], the last member
    of the enumeration in the missing header. *)
Definition LINFLEX_REGS_MAX : nat := 21.

(** The integer value of an enumeration member. *)
Definition reg_index (r : LinflexRegs) : nat :=
  match r with
  | LINFLEX_LINCR1 => 0
  | LINFLEX_LINIER => 1
  | LINFLEX_LINSR => 2
  | LINFLEX_LINESR => 3
  | LINFLEX_UARTCR => 4
  | LINFLEX_UARTSR => 5
  | LINFLEX_LINTCSR => 6
  | LINFLEX_LINOCR => 7
  | LINFLEX_LINTOCR => 8
  | LINFLEX_LINFBRR => 9
  | LINFLEX_LINIBRR => 10
  | LINFLEX_LINCFR => 11
  | LINFLEX_LINCR2 => 12
  | LINFLEX_BIDR => 13
  | LINFLEX_BDRL => 14
  | LINFLEX_BDRM => 15
  | LINFLEX_GCR => 16
  | LINFLEX_UARTPTO => 17
  | LINFLEX_UARTCTO => 18
  | LINFLEX_DMATXE => 19
  | LINFLEX_DMARXE => 20
  end%nat.

(** The member a [switch] on the integer [i] selects; [None] is the
    [default:] label. *)
Definition reg_of_index (i : Z) : option LinflexRegs :=
  match i with
  | 0 => Some LINFLEX_LINCR1
  | 1 => Some LINFLEX_LINIER
  | 2 => Some LINFLEX_LINSR
  | 3 => Some LINFLEX_LINESR
  | 4 => Some LINFLEX_UARTCR
  | 5 => Some LINFLEX_UARTSR
  | 6 => Some LINFLEX_LINTCSR
  | 7 => Some LINFLEX_LINOCR
  | 8 => Some LINFLEX_LINTOCR
  | 9 => Some LINFLEX_LINFBRR
  | 10 => Some LINFLEX_LINIBRR
  | 11 => Some LINFLEX_LINCFR
  | 12 => Some LINFLEX_LINCR2
  | 13 => Some LINFLEX_BIDR
  | 14 => Some LINFLEX_BDRL
  | 15 => Some LINFLEX_BDRM
  | 16 => Some LINFLEX_GCR
  | 17 => Some LINFLEX_UARTPTO
  | 18 => Some LINFLEX_UARTCTO
  | 19 => Some LINFLEX_DMATXE
  | 20 => Some LINFLEX_DMARXE
  | _ => None
  end.

(** [LinflexRegs reg = offset >> 2]: registers are 4 bytes wide.  The bus
    hands in offsets of the 0x1000-byte region only, for which the
    conversion to the enumeration type is exact. *)
Definition reg_of_offset (offset : Z) : option LinflexRegs :=
  reg_of_index (Z.shiftr offset 2).

(** Offsets the memory region can deliver ([memory_region_init_io] with
    size 0x1000). *)
Definition in_window (offset : Z) : Prop := 0 <= offset < 0x1000.

(** The bit constants of hw/char/fsl-linflex.h.  The header is not among the
    sources, so the model takes them as parameters. *)
Class LinflexHeader : Set := {
  LINCR1_INIT : Z;
  LINSR_LINS_INIT : Z;
  LINIER_DRIE : Z;
  LINIER_DTIE : Z;
  UARTCR_UART : Z;
  UARTSR_DRFRFE : Z;
  UARTSR_DTFTFF : Z;
  UARTSR_RMB : Z
}.

(** The bit positions of the LINFlexD register layout (INIT and UART are
    bit 0, DTIE/DTFTFF bit 1, DRIE/DRFRFE bit 2, RMB bit 9, the INIT state
    of the LINS field bit 12); used to run the model on concrete inputs. *)
Definition linflexd : LinflexHeader := {|
  LINCR1_INIT := 0x1;
  LINSR_LINS_INIT := 0x1000;
  LINIER_DRIE := 0x4;
  LINIER_DTIE := 0x2;
  UARTCR_UART := 0x1;
  UARTSR_DRFRFE := 0x4;
  UARTSR_DTFTFF := 0x2;
  UARTSR_RMB := 0x200
|}.

(** [FslLinflexState]: the register array is the only state of the device
    itself; [irq], [chr] and [iomem] are handles of its collaborators. *)
Record FslLinflexState : Set := { regs : list Z }.

(** [regs[r]] as an rvalue. *)
Definition reg_get (l : list Z) (r : LinflexRegs) : Z :=
  default 0 (l !! reg_index r).

(** [regs[r] = v]: the store converts to [uint32_t]. *)
Definition reg_set (l : list Z) (r : LinflexRegs) (v : Z) : list Z :=
  <[reg_index r := u32 v]> l.

(** The invariant of the C type [uint32_t regs[LINFLEX_REGS_MAX]]. *)
Definition wf (s : FslLinflexState) : Prop :=
  length (regs s) = LINFLEX_REGS_MAX /\ Forall is_u32 (regs s).

(** ** Effects *)

Inductive log_mask : Set := LOG_UNIMP | LOG_GUEST_ERROR.

(** Calls that leave the device. *)
Inductive event : Set :=
  | SetIrq (level : Z)            (* qemu_set_irq(s->irq, level) *)
  | AcceptInput                   (* qemu_chr_fe_accept_input(&s->chr) *)
  | ChrWriteAll (buf : list Z)    (* qemu_chr_fe_write_all(&s->chr, buf, len) *)
  | QemuLog (m : log_mask).       (* qemu_log_mask(m, ...) *)

(** A device operation: it returns a value, the next state and the calls it
    made, in order. *)
Definition dev (A : Type) : Type :=
  FslLinflexState -> A * FslLinflexState * list event.

Definition dev_ret {A} (a : A) : dev A := fun s => (a, s, []).

Definition dev_bind {A B} (k : A -> dev B) (m : dev A) : dev B :=
  fun s =>
    let '(a, s1, t1) := m s in
    let '(b, s2, t2) := k a s1 in
    (b, s2, t1 ++ t2).

#[local] Instance dev_mret : MRet dev := @dev_ret.
#[local] Instance dev_mbind : MBind dev := @dev_bind.

Definition rd (r : LinflexRegs) : dev Z :=
  fun s => (reg_get (regs s) r, s, []).

Definition wr (r : LinflexRegs) (v : Z) : dev unit :=
  fun s => (tt, {| regs := reg_set (regs s) r v |}, []).

Definition emit (e : event) : dev unit := fun s => (tt, s, [e]).

Definition qemu_set_irq (level : Z) : dev unit := emit (SetIrq level).
Definition qemu_chr_fe_accept_input : dev unit := emit AcceptInput.
Definition qemu_chr_fe_write_all (buf : list Z) : dev unit :=
  emit (ChrWriteAll buf).
Definition qemu_log_mask (m : log_mask) : dev unit := emit (QemuLog m).

(** Projections of a run. *)
Definition result {A} (r : A * FslLinflexState * list event) : A := r.1.1.
Definition state_of {A} (r : A * FslLinflexState * list event) :
  FslLinflexState := r.1.2.
Definition trace {A} (r : A * FslLinflexState * list event) : list event :=
  r.2.

(** ** The device *)

Section Device.
Context {H : LinflexHeader}.

(** [fsl_linflex_update_irq]: each of the two early returns raises the line,
    falling through lowers it. *)
Definition fsl_linflex_update_irq : dev unit :=
  ier ← rd LINFLEX_LINIER;
  sr ← rd LINFLEX_UARTSR;
  let transmit :=
    (* if interrupts on data transmission complete enabled *)
    if nonzero (Z.land ier LINIER_DTIE) then
      if nonzero (Z.land sr UARTSR_DTFTFF) then qemu_set_irq 1
      else qemu_set_irq 0
    else qemu_set_irq 0 in
  (* if interrupts on data reception complete enabled *)
  if nonzero (Z.land ier LINIER_DRIE) then
    if nonzero (Z.land sr UARTSR_DRFRFE) then qemu_set_irq 1
    else transmit
  else transmit.

(** The [switch] of [fsl_linflex_write]; [value] is already truncated. *)
Definition write_switch (reg : option LinflexRegs) (value : Z) : dev unit :=
  match reg with
  | Some LINFLEX_LINCR1 =>
      wr LINFLEX_LINCR1 (Z.land value 0x0001DF27);;
      cr1 ← rd LINFLEX_LINCR1;
      if nonzero (Z.land cr1 LINCR1_INIT) then
        sr ← rd LINFLEX_LINSR;
        wr LINFLEX_LINSR (Z.lor sr LINSR_LINS_INIT)
      else mret tt
  | Some LINFLEX_LINIER =>
      wr LINFLEX_LINIER (Z.land value 0x0000FFFF)
  | Some LINFLEX_LINSR
  | Some LINFLEX_LINESR =>
      qemu_log_mask LOG_UNIMP
  | Some LINFLEX_UARTCR =>
      cr1 ← rd LINFLEX_LINCR1;
      cr ← rd LINFLEX_UARTCR;
      if nonzero (Z.land cr1 LINCR1_INIT) then
        (* uart mode can only be toggled in initialization mode *)
        wr LINFLEX_UARTCR (Z.lor cr (Z.land value UARTCR_UART));;
        cr ← rd LINFLEX_UARTCR;
        if nonzero (Z.land cr UARTCR_UART) then
          wr LINFLEX_UARTCR (Z.lor cr value)
        else mret tt
      else if nonzero (Z.land cr UARTCR_UART) then
        wr LINFLEX_UARTCR (Z.lor cr (Z.land value 0x0070FC30))
      else mret tt
  | Some LINFLEX_UARTSR =>
      let value := Z.land value 0xFFFF in (* upper 16 bits are reserved *)
      let mask := u32 (Z.lor UARTSR_DRFRFE UARTSR_RMB) in
      sr ← rd LINFLEX_UARTSR;
      (if nonzero (Z.land sr mask) && negb (nonzero (Z.land value mask))
       then qemu_chr_fe_accept_input
       else mret tt);;
      sr ← rd LINFLEX_UARTSR;
      wr LINFLEX_UARTSR (Z.land sr (not64 value))
  | Some LINFLEX_LINTCSR => qemu_log_mask LOG_UNIMP
  | Some LINFLEX_LINOCR => qemu_log_mask LOG_UNIMP
  | Some LINFLEX_LINTOCR => qemu_log_mask LOG_UNIMP
  | Some LINFLEX_LINFBRR => qemu_log_mask LOG_UNIMP
  | Some LINFLEX_LINIBRR => qemu_log_mask LOG_UNIMP
  | Some LINFLEX_LINCFR => qemu_log_mask LOG_UNIMP
  | Some LINFLEX_LINCR2 => qemu_log_mask LOG_UNIMP
  | Some LINFLEX_BIDR => qemu_log_mask LOG_UNIMP
  | Some LINFLEX_BDRL =>
      (* write to uart mode buffer *)
      wr LINFLEX_BDRL (u32 value);;
      let ch := u8 value in
      qemu_chr_fe_write_all [ch];;
      sr ← rd LINFLEX_UARTSR;
      wr LINFLEX_UARTSR (Z.lor sr UARTSR_DTFTFF)
  | Some LINFLEX_BDRM => qemu_log_mask LOG_UNIMP
  | Some LINFLEX_GCR => qemu_log_mask LOG_UNIMP
  | Some LINFLEX_UARTPTO => qemu_log_mask LOG_UNIMP
  | Some LINFLEX_UARTCTO => qemu_log_mask LOG_UNIMP
  | Some LINFLEX_DMATXE => qemu_log_mask LOG_UNIMP
  | Some LINFLEX_DMARXE => qemu_log_mask LOG_UNIMP
  | None => qemu_log_mask LOG_GUEST_ERROR
  end.

(** [fsl_linflex_write(opaque, offset, value, size)]. *)
Definition fsl_linflex_write (offset value size : Z) : dev unit :=
  let reg := reg_of_offset offset in
  let value := u32 value in
  write_switch reg value;;
  (* update irq on all writes *)
  fsl_linflex_update_irq.

(** [fsl_linflex_read(opaque, offset, size)]. *)
Definition fsl_linflex_read (offset size : Z) : dev Z :=
  match reg_of_offset offset with
  | Some LINFLEX_LINCR1 =>
      cr1 ← rd LINFLEX_LINCR1;
      wr LINFLEX_LINCR1 (Z.lor cr1 0x00000080);; (* bit 7 is always high *)
      rd LINFLEX_LINCR1
  | Some LINFLEX_LINIER => qemu_log_mask LOG_UNIMP;; rd LINFLEX_LINIER
  | Some LINFLEX_LINSR => qemu_log_mask LOG_UNIMP;; rd LINFLEX_LINSR
  | Some LINFLEX_LINESR => qemu_log_mask LOG_UNIMP;; rd LINFLEX_LINESR
  | Some LINFLEX_UARTCR => qemu_log_mask LOG_UNIMP;; rd LINFLEX_UARTCR
  | Some LINFLEX_UARTSR => qemu_log_mask LOG_UNIMP;; rd LINFLEX_UARTSR
  | Some LINFLEX_LINTCSR => qemu_log_mask LOG_UNIMP;; rd LINFLEX_LINTCSR
  | Some LINFLEX_LINOCR => qemu_log_mask LOG_UNIMP;; rd LINFLEX_LINOCR
  | Some LINFLEX_LINTOCR => qemu_log_mask LOG_UNIMP;; rd LINFLEX_LINTOCR
  | Some LINFLEX_LINFBRR => qemu_log_mask LOG_UNIMP;; rd LINFLEX_LINFBRR
  | Some LINFLEX_LINIBRR => qemu_log_mask LOG_UNIMP;; rd LINFLEX_LINIBRR
  | Some LINFLEX_LINCFR => qemu_log_mask LOG_UNIMP;; rd LINFLEX_LINCFR
  | Some LINFLEX_LINCR2 => qemu_log_mask LOG_UNIMP;; rd LINFLEX_LINCR2
  | Some LINFLEX_BIDR => qemu_log_mask LOG_UNIMP;; rd LINFLEX_BIDR
  | Some LINFLEX_BDRL => qemu_log_mask LOG_UNIMP;; rd LINFLEX_BDRL
  | Some LINFLEX_BDRM =>
      (* read buffer *)
      r ← rd LINFLEX_BDRM;
      mret (Z.land r 0xFF)
  | Some LINFLEX_GCR => qemu_log_mask LOG_UNIMP;; rd LINFLEX_GCR
  | Some LINFLEX_UARTPTO => qemu_log_mask LOG_UNIMP;; rd LINFLEX_UARTPTO
  | Some LINFLEX_UARTCTO => qemu_log_mask LOG_UNIMP;; rd LINFLEX_UARTCTO
  | Some LINFLEX_DMATXE => qemu_log_mask LOG_UNIMP;; rd LINFLEX_DMATXE
  | Some LINFLEX_DMARXE => qemu_log_mask LOG_UNIMP;; rd LINFLEX_DMARXE
  | None => qemu_log_mask LOG_GUEST_ERROR;; mret 0
  end.

(** [fsl_linflex_rx(opaque, buf, size)]: [*buf] is the first byte of the
    buffer the backend delivers. *)
Definition fsl_linflex_rx (b : Z) (rest : list Z) (size : Z) : dev unit :=
  (* Store character in read buffer *)
  wr LINFLEX_BDRM (u8 b);;
  (* update status to indicate buffer full *)
  sr ← rd LINFLEX_UARTSR;
  wr LINFLEX_UARTSR (Z.lor sr UARTSR_DRFRFE);;
  sr ← rd LINFLEX_UARTSR;
  wr LINFLEX_UARTSR (Z.lor sr UARTSR_RMB);;
  fsl_linflex_update_irq.

(** [fsl_linflex_can_rx(opaque)]. *)
Definition fsl_linflex_can_rx : dev Z :=
  sr ← rd LINFLEX_UARTSR;
  if nonzero (Z.land sr UARTSR_DRFRFE) || nonzero (Z.land sr UARTSR_RMB)
  then mret 0
  else mret 1.

(** [memset(s->regs, 0, sizeof(s->regs))]. *)
Definition memset_regs : dev unit :=
  fun _ => (tt, {| regs := replicate LINFLEX_REGS_MAX 0 |}, []).

(** [fsl_linflex_reset_init], the enter phase. *)
Definition fsl_linflex_reset_init : dev unit :=
  memset_regs;;
  wr LINFLEX_LINCR1 0x00000082;;
  wr LINFLEX_LINIER 0;;
  wr LINFLEX_LINSR 0x00000040;;
  wr LINFLEX_LINESR 0;;
  wr LINFLEX_UARTCR 0;;
  wr LINFLEX_UARTSR 0;;
  wr LINFLEX_LINTCSR 0x00000200;;
  wr LINFLEX_LINOCR 0x0000FFFF;;
  wr LINFLEX_LINTOCR 0x00000E2C;;
  wr LINFLEX_LINFBRR 0;;
  wr LINFLEX_LINIBRR 0;;
  wr LINFLEX_LINCFR 0;;
  wr LINFLEX_LINCR2 0x00006000;;
  wr LINFLEX_BIDR 0;;
  wr LINFLEX_BDRL 0;;
  wr LINFLEX_BDRM 0;;
  wr LINFLEX_GCR 0;;
  wr LINFLEX_UARTPTO 0x00000FFF;;
  wr LINFLEX_UARTCTO 0;;
  wr LINFLEX_DMATXE 0;;
  wr LINFLEX_DMARXE 0.

(** [fsl_linflex_reset_hold]. *)
Definition fsl_linflex_reset_hold : dev unit :=
  sr ← rd LINFLEX_UARTSR;
  wr LINFLEX_UARTSR (Z.lor sr UARTSR_DTFTFF).

(** [fsl_linflex_reset_exit]. *)
Definition fsl_linflex_reset_exit : dev unit :=
  fsl_linflex_update_irq;;
  qemu_chr_fe_accept_input.

(** A full reset: the three phases in order. *)
Definition device_reset : dev unit :=
  fsl_linflex_reset_init;; fsl_linflex_reset_hold;; fsl_linflex_reset_exit.

(** [fsl_linflex_post_load]. *)
Definition fsl_linflex_post_load (version_id : Z) : dev Z :=
  fsl_linflex_update_irq;; mret 0.

(** The states the device goes through: a reset comes first, then guest
    accesses, deliveries of the backend and further resets in any order. *)
Inductive reachable : FslLinflexState -> Prop :=
  | reach_reset s0 :
      reachable (state_of (device_reset s0))
  | reach_write s offset value size :
      reachable s -> in_window offset ->
      reachable (state_of (fsl_linflex_write offset value size s))
  | reach_read s offset size :
      reachable s -> in_window offset ->
      reachable (state_of (fsl_linflex_read offset size s))
  | reach_rx s b rest size :
      reachable s ->
      reachable (state_of (fsl_linflex_rx b rest size s)).

End Device.

(** The state a reset leaves, with the constants of [linflexd]. *)
Definition reset_state : FslLinflexState :=
  state_of (@device_reset linflexd {| regs := [] |}).

(** The state after a reset and a guest write that sets LINCR1.INIT. *)
Definition init_state : FslLinflexState :=
  state_of (@fsl_linflex_write linflexd 0x00 0x1 4 reset_state).

(** The state after a reset and the delivery of the byte 0x41. *)
Definition rx_state : FslLinflexState :=
  state_of (@fsl_linflex_rx linflexd 0x41 [] 1 reset_state).

(** The state after a reset and a guest write that enables the receive and
    the transmit interrupt in LINIER. *)
Definition irq_enabled_state : FslLinflexState :=
  state_of (@fsl_linflex_write linflexd 0x04 0x6 4 reset_state).

(** ** Observations on states and traces *)

(** The levels a run drives on the interrupt line, in order. *)
Definition irq_levels (t : list event) : list Z :=
  omap (fun e => match e with SetIrq level => Some level | _ => None end) t.

(** The buffers a run hands to the character backend, in order. *)
Definition chr_written (t : list event) : list (list Z) :=
  omap (fun e => match e with ChrWriteAll buf => Some buf | _ => None end) t.

(** A flag of a register as the C code tests it: [reg & FLAG] is not zero. *)
Definition flag_set (reg flag : Z) : Prop := Z.land reg flag <> 0.

(** The registers whose [case] in [fsl_linflex_write] only logs
    [LOG_UNIMP]. *)
Definition write_unimplemented (r : LinflexRegs) : bool :=
  match r with
  | LINFLEX_LINCR1 | LINFLEX_LINIER | LINFLEX_UARTCR | LINFLEX_UARTSR
  | LINFLEX_BDRL => false
  | _ => true
  end.

(** The slots a write that decodes to [reg] is allowed to touch: the
    addressed one, LINSR with LINCR1 and UARTSR with BDRL. *)
Definition may_change (reg : option LinflexRegs) (r : LinflexRegs) : Prop :=
  reg = Some r \/
  (reg = Some LINFLEX_LINCR1 /\ r = LINFLEX_LINSR) \/
  (reg = Some LINFLEX_BDRL /\ r = LINFLEX_UARTSR).

Section Observations.
Context {H : LinflexHeader}.

(** The condition under which the interrupt line is to be high: receive
    interrupts enabled with the receive buffer full, or transmit interrupts
    enabled with the transmit buffer empty. *)
Definition irq_condition (l : list Z) : Prop :=
  (flag_set (reg_get l LINFLEX_LINIER) LINIER_DRIE /\
   flag_set (reg_get l LINFLEX_UARTSR) UARTSR_DRFRFE) \/
  (flag_set (reg_get l LINFLEX_LINIER) LINIER_DTIE /\
   flag_set (reg_get l LINFLEX_UARTSR) UARTSR_DTFTFF).

(** A run drives the interrupt line exactly once, as its last call, to the
    level the state it leaves asks for. *)
Definition irq_follows_state {A} (r : A * FslLinflexState * list event) :
  Prop :=
  exists level,
    irq_levels (trace r) = [level] /\
    last (trace r) = Some (SetIrq level) /\
    (level = 1 <-> irq_condition (regs (state_of r))) /\
    (level = 0 <-> ~ irq_condition (regs (state_of r))).

End Observations.

(** * Properties *)

(** ** Bit-level facts about the machine integers *)

Lemma u32_land_ones x : u32 x = Z.land x (Z.ones 32).
Proof. unfold u32. now rewrite Z.land_ones by lia. Qed.

Lemma u32_testbit x i :
  0 <= i -> Z.testbit (u32 x) i = Z.testbit x i && (i <? 32).
Proof.
  intros Hi. rewrite u32_land_ones, Z.land_spec.
  now rewrite Z.testbit_ones_nonneg by lia.
Qed.

Lemma not64_testbit x i :
  0 <= i -> Z.testbit (not64 x) i = xorb (Z.testbit x i) (i <? 64).
Proof.
  intros Hi. unfold not64.
  now rewrite Z.lxor_spec, Z.testbit_ones_nonneg by lia.
Qed.

Lemma u32_is_u32 x : is_u32 (u32 x).
Proof. unfold is_u32, u32. apply Z.mod_pos_bound. lia. Qed.

Lemma u32_small x : is_u32 x -> u32 x = x.
Proof. unfold is_u32, u32. intros Hx. now apply Z.mod_small. Qed.

Lemma is_u32_fix x : u32 x = x -> is_u32 x.
Proof. intros <-. apply u32_is_u32. Qed.

Lemma is_u32_high x i : is_u32 x -> 32 <= i -> Z.testbit x i = false.
Proof.
  intros Hx Hi. rewrite <- (u32_small x Hx), u32_testbit by lia.
  replace (i <? 32) with false by (symmetry; apply Z.ltb_ge; lia).
  apply andb_false_r.
Qed.

(** Equalities of bitwise expressions, bit by bit: bits from 32 upwards of
    a register value are settled by [is_u32_high], the others by cases. *)
Ltac bit_rewrite :=
  repeat first
    [ rewrite u32_testbit by lia
    | rewrite not64_testbit by lia
    | rewrite Z.land_spec
    | rewrite Z.lor_spec
    | rewrite Z.lnot_spec by lia
    | rewrite Z.ldiff_spec ].

Ltac bitwise :=
  apply Z.bits_inj'; intros ?i ?Hi; bit_rewrite;
  match goal with
  | i : Z |- _ =>
      destruct (Z.ltb_spec i 32); destruct (Z.ltb_spec i 64); try lia;
      repeat match goal with
             | Hx : is_u32 ?x |- _ =>
                 rewrite (is_u32_high x i Hx) by lia
             end;
      repeat match goal with
             | |- context [Z.testbit ?x i] => destruct (Z.testbit x i)
             end;
      reflexivity
  end.

Lemma is_u32_lor a b : is_u32 a -> is_u32 b -> is_u32 (Z.lor a b).
Proof. intros Ha Hb. apply is_u32_fix. bitwise. Qed.

Lemma is_u32_land_l a b : is_u32 a -> is_u32 (Z.land a b).
Proof. intros Ha. apply is_u32_fix. bitwise. Qed.

Lemma is_u32_land_r a b : is_u32 b -> is_u32 (Z.land a b).
Proof. intros Hb. apply is_u32_fix. bitwise. Qed.

Lemma u32_land_mask x m : is_u32 m -> Z.land (u32 x) m = Z.land x m.
Proof. intros Hm. bitwise. Qed.

(** [regs &= ~value] on a register value is the bitwise difference. *)
Lemma u32_land_not64 a v : is_u32 a -> u32 (Z.land a (not64 v)) = Z.ldiff a v.
Proof. intros Ha. bitwise. Qed.

Lemma ldiff_land_lnot a v : Z.ldiff a v = Z.land a (Z.lnot v).
Proof. bitwise. Qed.

Lemma u32_lor_flag a c : is_u32 c -> Z.land (u32 (Z.lor a c)) c = c.
Proof. intros Hc. bitwise. Qed.

Lemma nonzero_true x : nonzero x = true <-> x <> 0.
Proof. unfold nonzero. rewrite negb_true_iff. apply Z.eqb_neq. Qed.

Lemma nonzero_false x : nonzero x = false <-> x = 0.
Proof. unfold nonzero. rewrite negb_false_iff. apply Z.eqb_eq. Qed.

(** ** The register file and the decoding of offsets *)

Lemma reg_index_lt r : (reg_index r < LINFLEX_REGS_MAX)%nat.
Proof. unfold LINFLEX_REGS_MAX. destruct r; simpl; lia. Qed.

Lemma reg_index_inj r r' : reg_index r = reg_index r' -> r = r'.
Proof. destruct r, r'; simpl; intros Heq; congruence. Qed.

Lemma reg_of_index_Some i r :
  reg_of_index i = Some r -> i = Z.of_nat (reg_index r).
Proof.
  destruct i as [|p|p]; simpl; [|do 5 (try destruct p as [p|p|])|];
    intros Heq; inversion Heq; reflexivity.
Qed.

Lemma reg_of_index_of_reg r : reg_of_index (Z.of_nat (reg_index r)) = Some r.
Proof. destruct r; reflexivity. Qed.

Lemma reg_of_index_None i :
  reg_of_index i = None <-> i < 0 \/ Z.of_nat LINFLEX_REGS_MAX <= i.
Proof.
  split.
  - intros Hnone. unfold LINFLEX_REGS_MAX.
    destruct (Z_lt_le_dec i 0) as [|Hlo]; [now left|].
    destruct (Z_lt_le_dec i 21) as [Hhi|]; [exfalso|right; lia].
    assert (Hcases : In i (map Z.of_nat (seq 0 21))).
    { replace i with (Z.of_nat (Z.to_nat i)) by lia.
      apply in_map, in_seq. lia. }
    simpl in Hcases.
    repeat (destruct Hcases as [<-|Hcases]; [discriminate|]).
    exact Hcases.
  - intros Hi. destruct (reg_of_index i) as [r|] eqn:Hr; [|reflexivity].
    apply reg_of_index_Some in Hr. pose proof (reg_index_lt r). lia.
Qed.

(** Inside the window the index is [offset / 4], and every offset of a
    register's four bytes selects it. *)
Lemma reg_of_offset_Some offset r :
  reg_of_offset offset = Some r <->
  4 * Z.of_nat (reg_index r) <= offset < 4 * Z.of_nat (reg_index r) + 4.
Proof.
  unfold reg_of_offset. rewrite Z.shiftr_div_pow2 by lia.
  change (2 ^ 2) with 4. split.
  - intros Hr. apply reg_of_index_Some in Hr.
    Z.div_mod_to_equations. lia.
  - intros Hr.
    replace (offset / 4) with (Z.of_nat (reg_index r))
      by (Z.div_mod_to_equations; lia).
    apply reg_of_index_of_reg.
Qed.

Lemma reg_get_set l r v :
  (reg_index r < length l)%nat -> reg_get (reg_set l r v) r = u32 v.
Proof.
  intros Hlen. unfold reg_get, reg_set.
  now rewrite list_lookup_insert_eq.
Qed.

Lemma reg_get_set_ne l r r' v :
  r <> r' -> reg_get (reg_set l r v) r' = reg_get l r'.
Proof.
  intros Hne. unfold reg_get, reg_set.
  rewrite list_lookup_insert_ne; [reflexivity|].
  intros Heq. apply Hne, reg_index_inj, Heq.
Qed.

Lemma reg_set_length l r v : length (reg_set l r v) = length l.
Proof. apply length_insert. Qed.

Lemma reg_set_lookup_ne l r v (i : nat) :
  i <> reg_index r -> reg_set l r v !! i = l !! i.
Proof. intros Hne. unfold reg_set. now rewrite list_lookup_insert_ne. Qed.

Lemma reg_get_is_u32 l r : Forall is_u32 l -> is_u32 (reg_get l r).
Proof.
  intros Hl. unfold reg_get. destruct (l !! reg_index r) as [x|] eqn:Hx; simpl.
  - eapply Forall_lookup_1; eassumption.
  - unfold is_u32. lia.
Qed.

Lemma reg_set_is_u32 l r v : Forall is_u32 l -> Forall is_u32 (reg_set l r v).
Proof. intros Hl. apply Forall_insert; [assumption|apply u32_is_u32]. Qed.

Lemma wf_reg_get s r : wf s -> is_u32 (reg_get (regs s) r).
Proof. intros [_ Hs]. now apply reg_get_is_u32. Qed.

Lemma wf_reg_index s r : wf s -> (reg_index r < length (regs s))%nat.
Proof. intros [Hlen _]. rewrite Hlen. apply reg_index_lt. Qed.

(** ** Running device operations *)

Lemma bind_state {A B} (k : A -> dev B) (m : dev A) s :
  state_of ((m ≫= k) s) = state_of (k (result (m s)) (state_of (m s))).
Proof.
  unfold mbind, dev_mbind, dev_bind, state_of, result.
  destruct (m s) as [[a s1] t1]; simpl.
  now destruct (k a s1) as [[b s2] t2].
Qed.

Lemma bind_trace {A B} (k : A -> dev B) (m : dev A) s :
  trace ((m ≫= k) s) =
  trace (m s) ++ trace (k (result (m s)) (state_of (m s))).
Proof.
  unfold mbind, dev_mbind, dev_bind, state_of, result, trace.
  destruct (m s) as [[a s1] t1]; simpl.
  now destruct (k a s1) as [[b s2] t2].
Qed.

Lemma bind_result {A B} (k : A -> dev B) (m : dev A) s :
  result ((m ≫= k) s) = result (k (result (m s)) (state_of (m s))).
Proof.
  unfold mbind, dev_mbind, dev_bind, state_of, result.
  destruct (m s) as [[a s1] t1]; simpl.
  now destruct (k a s1) as [[b s2] t2].
Qed.

(** Unfolds the monad and the primitive operations and computes. *)
Ltac run :=
  unfold mbind, mret, dev_mbind, dev_mret, dev_bind, dev_ret, wr, rd,
    qemu_set_irq, qemu_chr_fe_accept_input, qemu_chr_fe_write_all,
    qemu_log_mask, emit, state_of, result, trace in *;
  cbn [fst snd regs app] in *.

(** ** The operations keep the register array well formed *)

Section Invariant.
Context {H : LinflexHeader}.

Lemma wr_wf r v s : wf s -> wf (state_of (wr r v s)).
Proof.
  intros [Hlen Hall]. split; run.
  - now rewrite reg_set_length.
  - now apply reg_set_is_u32.
Qed.

Lemma bind_wf {A B} (m : dev A) (k : A -> dev B) s :
  wf (state_of (m s)) ->
  (forall a s1, wf s1 -> wf (state_of (k a s1))) ->
  wf (state_of ((m ≫= k) s)).
Proof. intros Hm Hk. rewrite bind_state. now apply Hk. Qed.

Lemma emit_wf e s : wf s -> wf (state_of (emit e s)).
Proof. intros Hs. exact Hs. Qed.

Lemma ret_wf {A} (a : A) s : wf s -> wf (state_of ((mret a : dev A) s)).
Proof. intros Hs. exact Hs. Qed.

Lemma rd_wf r s : wf s -> wf (state_of (rd r s)).
Proof. intros Hs. exact Hs. Qed.

Lemma if_wf {A} (c : bool) (m1 m2 : dev A) s :
  wf (state_of (m1 s)) -> wf (state_of (m2 s)) ->
  wf (state_of ((if c then m1 else m2) s)).
Proof. now destruct c. Qed.

(** Splits a monadic program into its primitive steps. *)
Ltac wf_steps :=
  repeat first
    [ assumption
    | apply bind_wf; [|intros ? ? ?]
    | apply if_wf
    | apply wr_wf
    | apply emit_wf
    | apply ret_wf
    | apply rd_wf ].

Lemma update_irq_wf s : wf s -> wf (state_of (fsl_linflex_update_irq s)).
Proof.
  intros Hs. unfold fsl_linflex_update_irq, qemu_set_irq. cbv zeta. wf_steps.
Qed.

Lemma write_wf offset value size s :
  wf s -> wf (state_of (fsl_linflex_write offset value size s)).
Proof.
  intros Hs. unfold fsl_linflex_write. cbv zeta.
  apply bind_wf; [|intros ? ? ?; now apply update_irq_wf].
  unfold write_switch, qemu_log_mask, qemu_chr_fe_accept_input,
    qemu_chr_fe_write_all.
  destruct (reg_of_offset offset) as [[]|]; cbv zeta; wf_steps.
Qed.

Lemma read_wf offset size s :
  wf s -> wf (state_of (fsl_linflex_read offset size s)).
Proof.
  intros Hs. unfold fsl_linflex_read, qemu_log_mask.
  destruct (reg_of_offset offset) as [[]|]; wf_steps.
Qed.

Lemma rx_wf b rest size s :
  wf s -> wf (state_of (fsl_linflex_rx b rest size s)).
Proof.
  intros Hs. unfold fsl_linflex_rx.
  repeat (apply bind_wf; [|intros ? ? ?]); wf_steps;
    now apply update_irq_wf.
Qed.

Lemma memset_wf s : wf (state_of (memset_regs s)).
Proof.
  split; run.
  - apply length_replicate.
  - apply Forall_replicate. unfold is_u32. lia.
Qed.

Lemma reset_wf s : wf (state_of (device_reset s)).
Proof.
  unfold device_reset, fsl_linflex_reset_init, fsl_linflex_reset_hold,
    fsl_linflex_reset_exit, qemu_chr_fe_accept_input.
  repeat (apply bind_wf; [|intros ? ? ?]); wf_steps;
    first [exact (memset_wf s) | now apply update_irq_wf].
Qed.

Lemma reachable_wf s : reachable s -> wf s.
Proof.
  induction 1.
  - apply reset_wf.
  - now apply write_wf.
  - now apply read_wf.
  - now apply rx_wf.
Qed.

End Invariant.

(** ** The register protocol *)

Section Protocol.
Context {H : LinflexHeader}.

(** Cases on every condition the program branches on. *)
Ltac branches :=
  repeat match goal with
         | |- context [if ?c then _ else _] => destruct c eqn:?
         end.

(** *** Interrupt aggregation *)

Lemma update_irq_run s :
  exists level,
    fsl_linflex_update_irq s = (tt, s, [SetIrq level]) /\
    (level = 1 <-> irq_condition (regs s)) /\
    (level = 0 <-> ~ irq_condition (regs s)).
Proof.
  unfold fsl_linflex_update_irq, irq_condition, flag_set. run.
  branches; rewrite ?nonzero_true, ?nonzero_false in *;
    eexists; (split; [reflexivity|]); split; split;
      first [lia | tauto | intros _; tauto | intros ?; exfalso; tauto].
Qed.

Lemma write_switch_irq_levels reg value s :
  irq_levels (trace (write_switch reg value s)) = [].
Proof.
  unfold write_switch. destruct reg as [[]|]; run; branches; reflexivity.
Qed.

Lemma irq_levels_app t1 t2 : irq_levels (t1 ++ t2) = irq_levels t1 ++ irq_levels t2.
Proof. unfold irq_levels. apply omap_app. Qed.

Lemma then_update_irq {A} (m : dev A) s :
  irq_levels (trace (m s)) = [] ->
  irq_follows_state ((m;; fsl_linflex_update_irq) s).
Proof.
  intros Hm. unfold irq_follows_state.
  rewrite bind_trace, bind_state.
  destruct (update_irq_run (state_of (m s))) as (level & Hrun & Hone & Hzero).
  rewrite Hrun. exists level. unfold trace at 2 4, state_of at 1 3. simpl.
  rewrite irq_levels_app, Hm, last_snoc. auto.
Qed.

(** C2: after every guest write, whatever the offset in the window, and
    after every byte the backend delivers, the interrupt line is driven
    exactly once, as the last call of the handler, and its level is 1 if and
    only if, in the state the handler leaves, receive interrupts are enabled
    and the receive buffer is full, or transmit interrupts are enabled and
    the transmit buffer is empty; it is 0 otherwise. *)
Theorem irq_line_follows_state s offset value size b rest n :
  in_window offset ->
  irq_follows_state (fsl_linflex_write offset value size s) /\
  irq_follows_state (fsl_linflex_rx b rest n s).
Proof.
  intros _. split.
  - unfold fsl_linflex_write. cbv zeta.
    apply then_update_irq, write_switch_irq_levels.
  - unfold fsl_linflex_rx, irq_follows_state. run.
    match goal with
    | |- context [fsl_linflex_update_irq ?s1] =>
        destruct (update_irq_run s1) as (level & -> & Hone & Hzero)
    end.
    exists level. cbn. auto.
Qed.

(** *** Accesses outside the register set *)

(** C9: an access in the window whose index [offset >> 2] is outside the
    enumeration returns normally; the read returns 0, and neither the read
    nor the write changes a register slot. *)
Theorem invalid_register_access s offset value size :
  in_window offset ->
  Z.of_nat LINFLEX_REGS_MAX <= Z.shiftr offset 2 ->
  result (fsl_linflex_read offset size s) = 0 /\
  state_of (fsl_linflex_read offset size s) = s /\
  trace (fsl_linflex_read offset size s) = [QemuLog LOG_GUEST_ERROR] /\
  regs (state_of (fsl_linflex_write offset value size s)) = regs s /\
  exists level,
    fsl_linflex_write offset value size s =
    (tt, s, [QemuLog LOG_GUEST_ERROR; SetIrq level]).
Proof.
  intros _ Hidx.
  assert (Hreg : reg_of_offset offset = None).
  { apply reg_of_index_None. now right. }
  unfold fsl_linflex_read, fsl_linflex_write, write_switch. rewrite Hreg.
  destruct (update_irq_run s) as (level & Hrun & _).
  run. rewrite Hrun. repeat split; try reflexivity.
  now exists level.
Qed.

(** *** What a write may touch *)

Lemma write_state offset value size s :
  state_of (fsl_linflex_write offset value size s) =
  state_of (write_switch (reg_of_offset offset) (u32 value) s).
Proof.
  unfold fsl_linflex_write. cbv zeta. rewrite bind_state.
  destruct (update_irq_run (state_of (write_switch (reg_of_offset offset) (u32 value) s)))
    as (level & -> & _).
  reflexivity.
Qed.

(** Settles which slot an index that changed can be. *)
Ltac changed_slot i Hi :=
  repeat match type of Hi with
         | reg_set ?l ?r ?v !! i <> _ =>
             let Hne := fresh "Hne" in
             destruct (decide (i = reg_index r)) as [->|Hne];
             [ exists r; split; [reflexivity|unfold may_change; tauto]
             | rewrite (reg_set_lookup_ne l r v i Hne) in Hi ]
         end;
  try contradiction.

(** C10: a guest write changes no slot other than the addressed one, LINSR
    when LINCR1 is addressed and UARTSR when BDRL is addressed; the array
    keeps its length, and a write to a register whose case only logs, or to
    an offset outside the register set, leaves every slot as it was. *)
Theorem write_frame s offset value size :
  in_window offset ->
  let s' := state_of (fsl_linflex_write offset value size s) in
  length (regs s') = length (regs s) /\
  (forall i : nat,
      regs s' !! i <> regs s !! i ->
      exists r, i = reg_index r /\ may_change (reg_of_offset offset) r) /\
  (match reg_of_offset offset with
   | Some r => write_unimplemented r = true
   | None => True
   end -> regs s' = regs s).
Proof.
  intros _ s'. subst s'. rewrite write_state.
  unfold write_switch.
  destruct (reg_of_offset offset) as [[]|]; run; branches;
    cbn [fst snd regs]; rewrite ?reg_set_length;
    (split; [reflexivity|]);
    (split; [intros i Hi; changed_slot i Hi|]);
    first [reflexivity | discriminate].
Qed.


(** *** UART status: write one to clear *)

Lemma reg_set_same l r v :
  Forall is_u32 l -> (reg_index r < length l)%nat ->
  reg_get l r = u32 v -> reg_set l r v = l.
Proof.
  intros Hl Hlen Hget. unfold reg_set. apply list_insert_id.
  unfold reg_get in Hget.
  destruct (lookup_lt_is_Some_2 l (reg_index r) Hlen) as [x Hx].
  rewrite Hx in Hget |- *. simpl in Hget. now subst.
Qed.

Lemma uartsr_write_state s offset value size :
  reg_of_offset offset = Some LINFLEX_UARTSR ->
  regs (state_of (fsl_linflex_write offset value size s)) =
  reg_set (regs s) LINFLEX_UARTSR
    (Z.land (reg_get (regs s) LINFLEX_UARTSR)
            (not64 (Z.land (u32 value) 0xFFFF))).
Proof.
  intros Hreg. rewrite write_state, Hreg. unfold write_switch.
  run. branches; reflexivity.
Qed.

(** When exactly the write to UARTSR calls the backend's accept-input. *)
Lemma uartsr_write_resume s offset value size :
  reg_of_offset offset = Some LINFLEX_UARTSR ->
  let mask := u32 (Z.lor UARTSR_DRFRFE UARTSR_RMB) in
  In AcceptInput (trace (fsl_linflex_write offset value size s)) <->
  Z.land (reg_get (regs s) LINFLEX_UARTSR) mask <> 0 /\
  Z.land (Z.land (u32 value) 0xFFFF) mask = 0.
Proof.
  intros Hreg mask. subst mask.
  unfold fsl_linflex_write. cbv zeta. rewrite bind_trace, Hreg.
  match goal with
  | |- context [fsl_linflex_update_irq ?s1] =>
      destruct (update_irq_run s1) as (level & -> & _)
  end.
  unfold write_switch. run.
  destruct (nonzero (Z.land (reg_get _ _) _)) eqn:Hold;
    destruct (nonzero (Z.land (Z.land _ _) _)) eqn:Hnew;
    rewrite ?nonzero_true, ?nonzero_false in *; cbn;
    split; intros Hin;
    repeat match goal with
           | Hor : _ \/ _ |- _ => destruct Hor
           | Hand : _ /\ _ |- _ => destruct Hand
           end;
    try discriminate; try contradiction; auto.
Qed.

(** A write that has one of the two receive flags set both in the register
    and in the written value, that is, a write that clears a receive flag,
    never calls accept-input. *)
Lemma uartsr_clearing_write_never_resumes s offset value size flag :
  is_u32 UARTSR_DRFRFE -> is_u32 UARTSR_RMB ->
  reg_of_offset offset = Some LINFLEX_UARTSR ->
  flag = UARTSR_DRFRFE \/ flag = UARTSR_RMB ->
  flag_set (reg_get (regs s) LINFLEX_UARTSR) flag ->
  flag_set (Z.land value 0xFFFF) flag ->
  ~ In AcceptInput (trace (fsl_linflex_write offset value size s)).
Proof.
  intros Hdrfrfe Hrmb Hreg Hflag _ Hvalue Hin.
  apply uartsr_write_resume in Hin; [|assumption].
  destruct Hin as [_ Hzero].
  rewrite u32_land_mask in Hzero by (unfold is_u32; lia).
  rewrite u32_small in Hzero by now apply is_u32_lor.
  rewrite Z.land_lor_distr_r in Hzero.
  apply Z.lor_eq_0_iff in Hzero. destruct Hzero as [Hz1 Hz2].
  unfold flag_set in Hvalue. destruct Hflag; subst flag; contradiction.
Qed.

(** C3: a guest write of [value] to UARTSR leaves the old register value
    AND NOT ([value] masked to 16 bits): a bit is set afterwards exactly when
    it was set before and is not set in the mask; writing the same value a
    second time changes nothing. *)
Theorem uartsr_write_one_to_clear s offset value size :
  wf s ->
  reg_of_offset offset = Some LINFLEX_UARTSR ->
  let old := reg_get (regs s) LINFLEX_UARTSR in
  let mask := Z.land value 0xFFFF in
  let s1 := state_of (fsl_linflex_write offset value size s) in
  let s2 := state_of (fsl_linflex_write offset value size s1) in
  reg_get (regs s1) LINFLEX_UARTSR = Z.land old (Z.lnot mask) /\
  (forall i, 0 <= i ->
     Z.testbit (reg_get (regs s1) LINFLEX_UARTSR) i =
     Z.testbit old i && negb (Z.testbit mask i)) /\
  regs s2 = regs s1.
Proof.
  intros Hs Hreg old mask s1 s2.
  assert (Hmask : Z.land (u32 value) 0xFFFF = mask).
  { apply u32_land_mask. unfold is_u32. lia. }
  assert (Hold : is_u32 old) by now apply wf_reg_get.
  assert (Hnew : reg_get (regs s1) LINFLEX_UARTSR = Z.ldiff old mask).
  { subst s1. rewrite uartsr_write_state by assumption.
    rewrite reg_get_set by now apply wf_reg_index.
    rewrite Hmask. now apply u32_land_not64. }
  assert (Hs1 : wf s1) by now apply write_wf.
  split; [|split].
  - rewrite Hnew. apply ldiff_land_lnot.
  - intros i Hi. rewrite Hnew. apply Z.ldiff_spec.
  - subst s2. rewrite uartsr_write_state by assumption.
    apply reg_set_same; [apply Hs1|now apply wf_reg_index|].
    rewrite Hmask, u32_land_not64, Hnew by (rewrite Hnew; now apply is_u32_fix; bitwise).
    bitwise.
Qed.


(** *** UART control *)

(** C4: a guest write to UARTCR is dropped when LINCR1.INIT and the UART
    bit of UARTCR are both clear; with INIT clear and UART set it ORs in
    [value & 0x0070FC30]; with INIT set it ORs in the UART bit of the value
    and then, if the UART bit is set, the whole value.  No bit of the
    register that was set is clear afterwards. *)
Theorem uartcr_write_accumulates s offset value size :
  wf s ->
  reg_of_offset offset = Some LINFLEX_UARTCR ->
  let v := u32 value in
  let cr1 := reg_get (regs s) LINFLEX_LINCR1 in
  let old := reg_get (regs s) LINFLEX_UARTCR in
  let s' := state_of (fsl_linflex_write offset value size s) in
  let new := reg_get (regs s') LINFLEX_UARTCR in
  (~ flag_set cr1 LINCR1_INIT -> ~ flag_set old UARTCR_UART ->
   new = old /\ regs s' = regs s) /\
  (~ flag_set cr1 LINCR1_INIT -> flag_set old UARTCR_UART ->
   new = Z.lor old (Z.land v 0x0070FC30)) /\
  (flag_set cr1 LINCR1_INIT ->
   let mid := Z.lor old (Z.land v UARTCR_UART) in
   (flag_set mid UARTCR_UART -> new = Z.lor mid v) /\
   (~ flag_set mid UARTCR_UART -> new = mid)) /\
  (forall i, Z.testbit old i = true -> Z.testbit new i = true).
Proof.
  intros Hs Hreg v cr1 old s' new.
  assert (Hold : is_u32 old) by now apply wf_reg_get.
  assert (Hv : is_u32 v) by apply u32_is_u32.
  assert (Hlen : (reg_index LINFLEX_UARTCR < length (regs s))%nat)
    by now apply wf_reg_index.
  assert (Hmid : u32 (Z.lor old (Z.land v UARTCR_UART)) =
                 Z.lor old (Z.land v UARTCR_UART)).
  { apply u32_small, is_u32_lor, is_u32_land_l; assumption. }
  assert (Hcases :
    (nonzero (Z.land cr1 LINCR1_INIT) = false /\
     nonzero (Z.land old UARTCR_UART) = false /\
     new = old /\ regs s' = regs s) \/
    (nonzero (Z.land cr1 LINCR1_INIT) = false /\
     nonzero (Z.land old UARTCR_UART) = true /\
     new = Z.lor old (Z.land v 0x0070FC30)) \/
    (nonzero (Z.land cr1 LINCR1_INIT) = true /\
     nonzero (Z.land (Z.lor old (Z.land v UARTCR_UART)) UARTCR_UART) = true /\
     new = Z.lor (Z.lor old (Z.land v UARTCR_UART)) v) \/
    (nonzero (Z.land cr1 LINCR1_INIT) = true /\
     nonzero (Z.land (Z.lor old (Z.land v UARTCR_UART)) UARTCR_UART) = false /\
     new = Z.lor old (Z.land v UARTCR_UART))).
  { subst new s'. rewrite write_state, Hreg. unfold write_switch. run.
    fold cr1 old v.
    destruct (nonzero (Z.land cr1 LINCR1_INIT)) eqn:Hinit.
    - rewrite reg_get_set, Hmid by assumption.
      destruct (nonzero (Z.land (Z.lor old _) UARTCR_UART)) eqn:Huart;
        cbn [fst snd regs]; right; right; [left|right];
        rewrite ?reg_get_set, ?Hmid by (rewrite ?reg_set_length; assumption);
        repeat split.
      apply u32_small. now apply is_u32_lor; [apply is_u32_fix|].
    - destruct (nonzero (Z.land old UARTCR_UART)) eqn:Huart;
        cbn [fst snd regs]; [right; left|left]; repeat split.
      rewrite reg_get_set by assumption.
      apply u32_small, is_u32_lor, is_u32_land_l; assumption. }
  unfold flag_set.
  destruct Hcases as
    [(Hinit & Huart & -> & Hregs)|[(Hinit & Huart & ->)|
     [(Hinit & Huart & ->)|(Hinit & Huart & ->)]]];
    rewrite ?nonzero_true, ?nonzero_false in *;
    (split; [|split; [|split]]);
    first
      [ solve [intros i Hi; rewrite ?Z.lor_spec, Hi; reflexivity]
      | solve [cbv zeta; intuition congruence] ].
Qed.


(** *** Control register 1 *)

Lemma u32_lincr1_mask value :
  u32 (Z.land (u32 value) 0x0001DF27) = Z.land value 0x0001DF27.
Proof.
  rewrite u32_land_mask by (unfold is_u32; lia).
  apply u32_small, is_u32_land_r. unfold is_u32. lia.
Qed.

(** C6: a guest write of [value] to LINCR1 stores [value & 0x0001DF27];
    when the INIT bit of the stored value is set, the write sets the INIT
    state flag of LINSR; the write clears no bit of LINSR, so the flag stays
    set once it is. *)
Theorem lincr1_write_masks_and_latches s offset value size :
  wf s ->
  is_u32 LINSR_LINS_INIT ->
  reg_of_offset offset = Some LINFLEX_LINCR1 ->
  let s' := state_of (fsl_linflex_write offset value size s) in
  let sr := reg_get (regs s) LINFLEX_LINSR in
  let sr' := reg_get (regs s') LINFLEX_LINSR in
  reg_get (regs s') LINFLEX_LINCR1 = Z.land value 0x0001DF27 /\
  (flag_set (reg_get (regs s') LINFLEX_LINCR1) LINCR1_INIT ->
   Z.land sr' LINSR_LINS_INIT = LINSR_LINS_INIT) /\
  (forall i, Z.testbit sr i = true -> Z.testbit sr' i = true) /\
  (flag_set sr LINSR_LINS_INIT -> flag_set sr' LINSR_LINS_INIT).
Proof.
  intros Hs Hflag Hreg s' sr sr'.
  assert (Hsr : is_u32 sr) by now apply wf_reg_get.
  assert (Hlen : forall r, (reg_index r < length (regs s))%nat)
    by (intros r; now apply wf_reg_index).
  assert (Hcases :
    reg_get (regs s') LINFLEX_LINCR1 = Z.land value 0x0001DF27 /\
    ((nonzero (Z.land (Z.land value 0x0001DF27) LINCR1_INIT) = true /\
      sr' = Z.lor sr LINSR_LINS_INIT) \/
     (nonzero (Z.land (Z.land value 0x0001DF27) LINCR1_INIT) = false /\
      sr' = sr))).
  { subst sr' s'. rewrite write_state, Hreg. unfold write_switch. run.
    rewrite reg_get_set, u32_lincr1_mask by apply Hlen.
    destruct (nonzero (Z.land (Z.land value 0x0001DF27) LINCR1_INIT));
      cbn [fst snd regs].
    - rewrite reg_get_set_ne, !reg_get_set, u32_lincr1_mask
        by (rewrite ?reg_set_length; first [apply Hlen | discriminate]).
      rewrite reg_get_set_ne by discriminate. fold sr.
      split; [reflexivity|left]. split; [reflexivity|].
      apply u32_small. now apply is_u32_lor.
    - rewrite reg_get_set, u32_lincr1_mask, reg_get_set_ne
        by first [apply Hlen | discriminate].
      split; [reflexivity|right]. split; reflexivity. }
  destruct Hcases as [Hcr1 [[Hinit ->]|[Hinit ->]]];
    rewrite Hcr1; unfold flag_set;
    rewrite ?nonzero_true, ?nonzero_false in Hinit;
    (split; [reflexivity|]); (split; [|split]);
    try (intros; contradiction); try (intros; assumption).
  - intros _. bitwise.
  - intros i Hi. now rewrite Z.lor_spec, Hi.
  - intros Hset Hzero. apply Hset.
    assert (Hc : Z.land (Z.lor sr LINSR_LINS_INIT) LINSR_LINS_INIT =
                 LINSR_LINS_INIT) by bitwise.
    rewrite Hc in Hzero. rewrite Hzero. apply Z.land_0_r.
Qed.


(** *** Transmit buffer *)

Lemma u8_u32 x : u8 (u32 x) = x mod 2 ^ 8.
Proof.
  unfold u8, u32. rewrite <- !Z.land_ones by lia.
  apply Z.bits_inj'. intros i Hi.
  rewrite !Z.land_spec, !Z.testbit_ones_nonneg by lia.
  destruct (Z.ltb_spec i 8), (Z.ltb_spec i 32); try lia;
    destruct (Z.testbit x i); reflexivity.
Qed.

Lemma u32_u32 x : u32 (u32 x) = u32 x.
Proof. apply u32_small, u32_is_u32. Qed.

(** C7: a guest write of [value] to BDRL stores the 32-bit truncation of
    the value in BDRL, hands exactly one buffer of exactly one byte, the low
    byte of the value, to the character backend, and leaves the
    transmit-buffer-empty flag of UARTSR set. *)
Theorem bdrl_write_transmits s offset value size :
  wf s ->
  is_u32 UARTSR_DTFTFF ->
  reg_of_offset offset = Some LINFLEX_BDRL ->
  let r := fsl_linflex_write offset value size s in
  reg_get (regs (state_of r)) LINFLEX_BDRL = value mod 2 ^ 32 /\
  chr_written (trace r) = [[value mod 2 ^ 8]] /\
  Z.land (reg_get (regs (state_of r)) LINFLEX_UARTSR) UARTSR_DTFTFF =
  UARTSR_DTFTFF.
Proof.
  intros Hs Hflag Hreg r.
  assert (Hlen : forall r, (reg_index r < length (regs s))%nat)
    by (intros r0; now apply wf_reg_index).
  subst r. split; [|split].
  - rewrite write_state, Hreg. unfold write_switch. run.
    rewrite reg_get_set_ne, reg_get_set, !u32_u32
      by first [apply Hlen | discriminate].
    reflexivity.
  - unfold fsl_linflex_write. cbv zeta. rewrite bind_trace, Hreg.
    match goal with
    | |- context [fsl_linflex_update_irq ?s1] =>
        destruct (update_irq_run s1) as (level & -> & _)
    end.
    unfold write_switch. run. cbn. now rewrite u8_u32.
  - rewrite write_state, Hreg. unfold write_switch. run.
    rewrite reg_get_set by (rewrite reg_set_length; apply Hlen).
    now apply u32_lor_flag.
Qed.

(** *** Reads *)

(** C8: in every state the device can reach, a guest read of LINCR1 returns
    the stored value with bit 7 forced to 1, stores that value back, and so
    returns exactly what the register holds afterwards. *)
Theorem lincr1_read_forces_bit7 s offset size :
  reachable s ->
  reg_of_offset offset = Some LINFLEX_LINCR1 ->
  let r := fsl_linflex_read offset size s in
  Z.testbit (result r) 7 = true /\
  Z.testbit (reg_get (regs (state_of r)) LINFLEX_LINCR1) 7 = true /\
  result r = reg_get (regs (state_of r)) LINFLEX_LINCR1 /\
  result r = Z.lor (reg_get (regs s) LINFLEX_LINCR1) 0x80.
Proof.
  intros Hreach Hreg r. apply reachable_wf in Hreach.
  assert (Hold : is_u32 (reg_get (regs s) LINFLEX_LINCR1))
    by now apply wf_reg_get.
  assert (Hnew : result r = Z.lor (reg_get (regs s) LINFLEX_LINCR1) 0x80).
  { subst r. unfold fsl_linflex_read. rewrite Hreg. run.
    rewrite reg_get_set by now apply wf_reg_index.
    apply u32_small, is_u32_lor; [assumption|unfold is_u32; lia]. }
  assert (Hsame : result r = reg_get (regs (state_of r)) LINFLEX_LINCR1).
  { subst r. unfold fsl_linflex_read. rewrite Hreg. run. reflexivity. }
  rewrite <- Hsame, Hnew, Z.lor_spec.
  change (Z.testbit 0x80 7) with true. rewrite orb_true_r. auto.
Qed.

(** *** Registers that are not implemented *)

(** C5, as the code has it: a guest write to a register whose case only
    logs stores nothing; every slot keeps its value, and a following read of
    that register returns the value it held before the write (its low byte
    for BDRM). *)
Theorem unimplemented_write_ignored s offset value size r :
  reg_of_offset offset = Some r ->
  write_unimplemented r = true ->
  let w := fsl_linflex_write offset value size s in
  let old := reg_get (regs s) r in
  regs (state_of w) = regs s /\
  (exists level, trace w = [QemuLog LOG_UNIMP; SetIrq level]) /\
  result (fsl_linflex_read offset size (state_of w)) =
  match r with
  | LINFLEX_BDRM => Z.land old 0xFF
  | _ => old
  end.
Proof.
  intros Hreg Hunimp w old.
  assert (Hw : exists level,
             w = (tt, s, [QemuLog LOG_UNIMP; SetIrq level])).
  { subst w. unfold fsl_linflex_write. rewrite Hreg. cbv zeta.
    destruct (update_irq_run s) as (level & Hrun & _). exists level.
    unfold write_switch.
    destruct r; try discriminate Hunimp; run; rewrite Hrun; reflexivity. }
  destruct Hw as (level & ->).
  unfold fsl_linflex_read. rewrite Hreg.
  destruct r; try discriminate Hunimp; run; cbn; repeat split;
    now exists level.
Qed.

End Protocol.

(** ** Runs on concrete inputs *)

Section Concrete.
#[local] Existing Instance linflexd.

(** Well-formedness of an explicit register array, by evaluation. *)
Lemma wf_by_evaluation s :
  (length (regs s) =? LINFLEX_REGS_MAX)%nat &&
  forallb (fun x => (0 <=? x) && (x <? 2 ^ 32)) (regs s) = true ->
  wf s.
Proof.
  intros Hcheck. apply andb_true_iff in Hcheck as [Hlen Hall]. split.
  - now apply Nat.eqb_eq.
  - apply Forall_forall. intros x Hx.
    rewrite forallb_forall in Hall.
    specialize (Hall x (proj1 (list_elem_of_In _ _) Hx)).
    apply andb_true_iff in Hall as [Hlo Hhi]. unfold is_u32.
    apply Z.leb_le in Hlo. apply Z.ltb_lt in Hhi. lia.
Qed.

Lemma reset_state_wf : wf reset_state.
Proof. apply wf_by_evaluation. reflexivity. Qed.

Lemma init_state_wf : wf init_state.
Proof. apply wf_by_evaluation. reflexivity. Qed.

Lemma rx_state_wf : wf rx_state.
Proof. apply wf_by_evaluation. reflexivity. Qed.

Lemma reset_state_reachable : reachable reset_state.
Proof. apply (reach_reset (H := linflexd)). Qed.

Example reset_state_regs :
  regs reset_state =
  [0x82; 0; 0x40; 0; 0; 0x2; 0x200; 0xFFFF; 0xE2C; 0; 0; 0; 0x6000; 0; 0; 0;
   0; 0xFFF; 0; 0; 0].
Proof. reflexivity. Qed.

Example rx_state_uartsr : reg_get (regs rx_state) LINFLEX_UARTSR = 0x206.
Proof. reflexivity. Qed.

(** C1, where the code departs from it: after the delivery of a byte the
    receive-buffer-full and receive-message-pending flags are set (UARTSR is
    0x206).  A guest write of 0x204 to UARTSR has both flags set in the
    written value and clears them, yet the handler does not call
    accept-input; a guest write of 0, which clears nothing, does call it. *)
Theorem uartsr_clearing_write_does_not_resume :
  trace (fsl_linflex_write 0x14 0x204 4 rx_state) = [SetIrq 0] /\
  reg_get (regs (state_of (fsl_linflex_write 0x14 0x204 4 rx_state)))
    LINFLEX_UARTSR = 0x2 /\
  trace (fsl_linflex_write 0x14 0 4 rx_state) = [AcceptInput; SetIrq 0] /\
  reg_get (regs (state_of (fsl_linflex_write 0x14 0 4 rx_state)))
    LINFLEX_UARTSR = 0x206.
Proof. repeat split; reflexivity. Qed.

(** C5 as stated fails: after a reset, a guest write of 0x1234 to LINESR
    (offset 0x0C) does not store the value, and the following read does not
    return it. *)
Lemma unimplemented_write_not_stored :
  reg_get (regs (state_of (fsl_linflex_write 0x0C 0x1234 4 reset_state)))
    LINFLEX_LINESR <> 0x1234 /\
  result (fsl_linflex_read 0x0C 4
            (state_of (fsl_linflex_write 0x0C 0x1234 4 reset_state)))
  <> 0x1234.
Proof. split; vm_compute; discriminate. Qed.

Lemma irq_line_follows_state_witness :
  in_window 0x38 /\
  irq_follows_state (fsl_linflex_write 0x38 0x41 4 reset_state) /\
  irq_follows_state (fsl_linflex_rx 0x41 [] 1 reset_state).
Proof.
  split; [unfold in_window; lia|].
  apply (irq_line_follows_state (H := linflexd)). unfold in_window. lia.
Defined.

Lemma uartsr_write_one_to_clear_witness :
  wf rx_state /\
  reg_of_offset 0x14 = Some LINFLEX_UARTSR /\
  let old := reg_get (regs rx_state) LINFLEX_UARTSR in
  let mask := Z.land 0x204 0xFFFF in
  let s1 := state_of (fsl_linflex_write 0x14 0x204 4 rx_state) in
  let s2 := state_of (fsl_linflex_write 0x14 0x204 4 s1) in
  reg_get (regs s1) LINFLEX_UARTSR = Z.land old (Z.lnot mask) /\
  (forall i, 0 <= i ->
     Z.testbit (reg_get (regs s1) LINFLEX_UARTSR) i =
     Z.testbit old i && negb (Z.testbit mask i)) /\
  regs s2 = regs s1.
Proof.
  split; [exact rx_state_wf|]. split; [reflexivity|].
  apply (uartsr_write_one_to_clear (H := linflexd));
    [exact rx_state_wf|reflexivity].
Defined.

Lemma uartcr_write_accumulates_witness :
  wf init_state /\
  reg_of_offset 0x10 = Some LINFLEX_UARTCR /\
  let v := u32 0x33 in
  let cr1 := reg_get (regs init_state) LINFLEX_LINCR1 in
  let old := reg_get (regs init_state) LINFLEX_UARTCR in
  let s' := state_of (fsl_linflex_write 0x10 0x33 4 init_state) in
  let new := reg_get (regs s') LINFLEX_UARTCR in
  (~ flag_set cr1 LINCR1_INIT -> ~ flag_set old UARTCR_UART ->
   new = old /\ regs s' = regs init_state) /\
  (~ flag_set cr1 LINCR1_INIT -> flag_set old UARTCR_UART ->
   new = Z.lor old (Z.land v 0x0070FC30)) /\
  (flag_set cr1 LINCR1_INIT ->
   let mid := Z.lor old (Z.land v UARTCR_UART) in
   (flag_set mid UARTCR_UART -> new = Z.lor mid v) /\
   (~ flag_set mid UARTCR_UART -> new = mid)) /\
  (forall i, Z.testbit old i = true -> Z.testbit new i = true).
Proof.
  split; [exact init_state_wf|]. split; [reflexivity|].
  apply (uartcr_write_accumulates (H := linflexd));
    [exact init_state_wf|reflexivity].
Defined.

Lemma unimplemented_write_ignored_witness :
  reg_of_offset 0x0C = Some LINFLEX_LINESR /\
  write_unimplemented LINFLEX_LINESR = true /\
  let w := fsl_linflex_write 0x0C 0x1234 4 reset_state in
  let old := reg_get (regs reset_state) LINFLEX_LINESR in
  regs (state_of w) = regs reset_state /\
  (exists level, trace w = [QemuLog LOG_UNIMP; SetIrq level]) /\
  result (fsl_linflex_read 0x0C 4 (state_of w)) = old.
Proof.
  split; [reflexivity|]. split; [reflexivity|].
  apply (unimplemented_write_ignored (H := linflexd) reset_state 0x0C 0x1234 4
           LINFLEX_LINESR); reflexivity.
Defined.

Lemma lincr1_write_masks_and_latches_witness :
  wf reset_state /\
  is_u32 LINSR_LINS_INIT /\
  reg_of_offset 0x00 = Some LINFLEX_LINCR1 /\
  let s' := state_of (fsl_linflex_write 0x00 0xFFFFFFFF 4 reset_state) in
  let sr := reg_get (regs reset_state) LINFLEX_LINSR in
  let sr' := reg_get (regs s') LINFLEX_LINSR in
  reg_get (regs s') LINFLEX_LINCR1 = Z.land 0xFFFFFFFF 0x0001DF27 /\
  (flag_set (reg_get (regs s') LINFLEX_LINCR1) LINCR1_INIT ->
   Z.land sr' LINSR_LINS_INIT = LINSR_LINS_INIT) /\
  (forall i, Z.testbit sr i = true -> Z.testbit sr' i = true) /\
  (flag_set sr LINSR_LINS_INIT -> flag_set sr' LINSR_LINS_INIT).
Proof.
  assert (Hflag : is_u32 LINSR_LINS_INIT) by (unfold is_u32; simpl; lia).
  split; [exact reset_state_wf|]. split; [exact Hflag|].
  split; [reflexivity|].
  apply (lincr1_write_masks_and_latches (H := linflexd));
    [exact reset_state_wf|exact Hflag|reflexivity].
Defined.

Lemma bdrl_write_transmits_witness :
  wf reset_state /\
  is_u32 UARTSR_DTFTFF /\
  reg_of_offset 0x38 = Some LINFLEX_BDRL /\
  let r := fsl_linflex_write 0x38 0x12345678 4 reset_state in
  reg_get (regs (state_of r)) LINFLEX_BDRL = 0x12345678 mod 2 ^ 32 /\
  chr_written (trace r) = [[0x12345678 mod 2 ^ 8]] /\
  Z.land (reg_get (regs (state_of r)) LINFLEX_UARTSR) UARTSR_DTFTFF =
  UARTSR_DTFTFF.
Proof.
  assert (Hflag : is_u32 UARTSR_DTFTFF) by (unfold is_u32; simpl; lia).
  split; [exact reset_state_wf|]. split; [exact Hflag|].
  split; [reflexivity|].
  apply (bdrl_write_transmits (H := linflexd));
    [exact reset_state_wf|exact Hflag|reflexivity].
Defined.

Lemma lincr1_read_forces_bit7_witness :
  reachable init_state /\
  reg_of_offset 0x00 = Some LINFLEX_LINCR1 /\
  let r := fsl_linflex_read 0x00 4 init_state in
  Z.testbit (result r) 7 = true /\
  Z.testbit (reg_get (regs (state_of r)) LINFLEX_LINCR1) 7 = true /\
  result r = reg_get (regs (state_of r)) LINFLEX_LINCR1 /\
  result r = Z.lor (reg_get (regs init_state) LINFLEX_LINCR1) 0x80.
Proof.
  assert (Hreach : reachable init_state).
  { apply (reach_write (H := linflexd)); [exact reset_state_reachable|].
    unfold in_window. lia. }
  split; [exact Hreach|]. split; [reflexivity|].
  apply (lincr1_read_forces_bit7 (H := linflexd));
    [exact Hreach|reflexivity].
Defined.

Lemma invalid_register_access_witness :
  in_window 0x54 /\
  Z.of_nat LINFLEX_REGS_MAX <= Z.shiftr 0x54 2 /\
  result (fsl_linflex_read 0x54 4 reset_state) = 0 /\
  state_of (fsl_linflex_read 0x54 4 reset_state) = reset_state /\
  trace (fsl_linflex_read 0x54 4 reset_state) = [QemuLog LOG_GUEST_ERROR] /\
  regs (state_of (fsl_linflex_write 0x54 0x1234 4 reset_state)) =
  regs reset_state /\
  exists level,
    fsl_linflex_write 0x54 0x1234 4 reset_state =
    (tt, reset_state, [QemuLog LOG_GUEST_ERROR; SetIrq level]).
Proof.
  assert (Hwin : in_window 0x54) by (unfold in_window; lia).
  assert (Hidx : Z.of_nat LINFLEX_REGS_MAX <= Z.shiftr 0x54 2)
    by (vm_compute; discriminate).
  split; [exact Hwin|]. split; [exact Hidx|].
  apply (invalid_register_access (H := linflexd)); [exact Hwin|exact Hidx].
Defined.

Lemma write_frame_witness :
  in_window 0x38 /\
  let s' := state_of (fsl_linflex_write 0x38 0x41 4 reset_state) in
  length (regs s') = length (regs reset_state) /\
  (forall i : nat,
      regs s' !! i <> regs reset_state !! i ->
      exists r, i = reg_index r /\ may_change (reg_of_offset 0x38) r) /\
  (match reg_of_offset 0x38 with
   | Some r => write_unimplemented r = true
   | None => True
   end -> regs s' = regs reset_state).
Proof.
  split; [unfold in_window; lia|].
  apply (write_frame (H := linflexd)). unfold in_window. lia.
Defined.

End Concrete.

(** ** The receive path, the reset phases and the other registers *)

Section Lifecycle.
Context {H : LinflexHeader}.

Ltac conditions :=
  repeat match goal with
         | |- context [if ?c then _ else _] => destruct c eqn:?
         end.

Lemma testbit_above x n i :
  0 <= x < 2 ^ n -> 0 <= n <= i -> Z.testbit x i = false.
Proof.
  intros Hx Hi. rewrite <- (Z.mod_small x (2 ^ n)) by assumption.
  apply Z.mod_pow2_bits_high. lia.
Qed.

(** *** Delivery of a byte *)

Lemma rx_run s b rest n :
  exists level,
    fsl_linflex_rx b rest n s =
    (tt,
     {| regs :=
         reg_set
           (reg_set (reg_set (regs s) LINFLEX_BDRM (u8 b)) LINFLEX_UARTSR
              (Z.lor
                 (reg_get (reg_set (regs s) LINFLEX_BDRM (u8 b))
                    LINFLEX_UARTSR)
                 UARTSR_DRFRFE))
           LINFLEX_UARTSR
           (Z.lor
              (reg_get
                 (reg_set (reg_set (regs s) LINFLEX_BDRM (u8 b))
                    LINFLEX_UARTSR
                    (Z.lor
                       (reg_get (reg_set (regs s) LINFLEX_BDRM (u8 b))
                          LINFLEX_UARTSR)
                       UARTSR_DRFRFE))
                 LINFLEX_UARTSR)
              UARTSR_RMB) |},
     [SetIrq level]).
Proof.
  unfold fsl_linflex_rx. run.
  match goal with
  | |- context [fsl_linflex_update_irq ?s1] =>
      destruct (update_irq_run s1) as (level & -> & _)
  end.
  now exists level.
Qed.

Lemma rx_uartsr s b rest n :
  wf s ->
  reg_get (regs (state_of (fsl_linflex_rx b rest n s))) LINFLEX_UARTSR =
  u32 (Z.lor (u32 (Z.lor (reg_get (regs s) LINFLEX_UARTSR) UARTSR_DRFRFE))
         UARTSR_RMB).
Proof.
  intros Hs. destruct (rx_run s b rest n) as (level & ->).
  unfold state_of. cbn [fst snd regs].
  rewrite !reg_get_set
    by (rewrite ?reg_set_length; now apply wf_reg_index).
  now rewrite reg_get_set_ne by discriminate.
Qed.

Lemma can_rx_run s :
  fsl_linflex_can_rx s =
  (if nonzero (Z.land (reg_get (regs s) LINFLEX_UARTSR) UARTSR_DRFRFE) ||
      nonzero (Z.land (reg_get (regs s) LINFLEX_UARTSR) UARTSR_RMB)
   then 0 else 1, s, []).
Proof. unfold fsl_linflex_can_rx. run. now conditions. Qed.

(** X1: once a byte has been delivered the acceptance gate is shut:
    [fsl_linflex_can_rx] returns 0 in the state [fsl_linflex_rx] leaves. *)
Theorem rx_closes_gate s b rest n :
  wf s ->
  is_u32 UARTSR_DRFRFE -> is_u32 UARTSR_RMB ->
  UARTSR_DRFRFE <> 0 \/ UARTSR_RMB <> 0 ->
  result (fsl_linflex_can_rx (state_of (fsl_linflex_rx b rest n s))) = 0.
Proof.
  intros Hs Hdrfrfe Hrmb Hflags.
  assert (Hold : is_u32 (reg_get (regs s) LINFLEX_UARTSR))
    by now apply wf_reg_get.
  rewrite can_rx_run, rx_uartsr by assumption. unfold result. cbn [fst].
  set (old := reg_get (regs s) LINFLEX_UARTSR) in *.
  assert (H1 : Z.land (u32 (Z.lor (u32 (Z.lor old UARTSR_DRFRFE)) UARTSR_RMB))
                 UARTSR_DRFRFE = UARTSR_DRFRFE) by bitwise.
  assert (H2 : Z.land (u32 (Z.lor (u32 (Z.lor old UARTSR_DRFRFE)) UARTSR_RMB))
                 UARTSR_RMB = UARTSR_RMB) by bitwise.
  rewrite H1, H2.
  destruct (nonzero UARTSR_DRFRFE) eqn:E1; [reflexivity|].
  destruct (nonzero UARTSR_RMB) eqn:E2; [reflexivity|].
  apply nonzero_false in E1, E2. tauto.
Qed.

(** X2: a delivered byte is what the guest reads back from BDRM: the read
    returns the byte (modulo 256), changes nothing and makes no call, so it
    does not re-arm the backend. *)
Theorem rx_then_read_bdrm s b rest n offset size :
  wf s ->
  reg_of_offset offset = Some LINFLEX_BDRM ->
  let s1 := state_of (fsl_linflex_rx b rest n s) in
  fsl_linflex_read offset size s1 = (b mod 2 ^ 8, s1, []).
Proof.
  intros Hs Hreg s1. subst s1.
  destruct (rx_run s b rest n) as (level & ->).
  unfold fsl_linflex_read. rewrite Hreg. run.
  rewrite !reg_get_set_ne, reg_get_set
    by first [discriminate | now apply wf_reg_index].
  f_equal. f_equal. unfold u8, u32.
  rewrite <- !Z.land_ones by lia.
  apply Z.bits_inj'. intros i Hi.
  rewrite !Z.land_spec, !Z.testbit_ones_nonneg by lia.
  change 255 with (Z.ones 8). rewrite Z.testbit_ones_nonneg by lia.
  destruct (Z.ltb_spec i 8), (Z.ltb_spec i 32); try lia;
    destruct (Z.testbit b i); reflexivity.
Qed.

(** X3: a delivery stores to BDRM and UARTSR only, keeps the length of the
    array, clears no bit of UARTSR, and its only call drives the interrupt
    line. *)
Theorem rx_frame s b rest n :
  wf s ->
  let r := fsl_linflex_rx b rest n s in
  length (regs (state_of r)) = length (regs s) /\
  (forall i : nat,
      regs (state_of r) !! i <> regs s !! i ->
      i = reg_index LINFLEX_BDRM \/ i = reg_index LINFLEX_UARTSR) /\
  (forall i,
      Z.testbit (reg_get (regs s) LINFLEX_UARTSR) i = true ->
      Z.testbit (reg_get (regs (state_of r)) LINFLEX_UARTSR) i = true) /\
  exists level, trace r = [SetIrq level].
Proof.
  intros Hs r. subst r.
  assert (Hold : is_u32 (reg_get (regs s) LINFLEX_UARTSR))
    by now apply wf_reg_get.
  split; [|split; [|split]].
  - destruct (rx_run s b rest n) as (level & ->).
    unfold state_of. cbn [fst snd regs]. now rewrite !reg_set_length.
  - destruct (rx_run s b rest n) as (level & ->).
    unfold state_of. cbn [fst snd regs]. intros i Hi.
    destruct (decide (i = reg_index LINFLEX_UARTSR)) as [|Hne1]; [now right|].
    destruct (decide (i = reg_index LINFLEX_BDRM)) as [|Hne2]; [now left|].
    rewrite !reg_set_lookup_ne in Hi by assumption. contradiction.
  - intros i Hbit. rewrite rx_uartsr by assumption.
    destruct (Z.neg_nonneg_cases i) as [Hneg|Hi].
    { now rewrite Z.testbit_neg_r in Hbit by assumption. }
    rewrite u32_testbit, Z.lor_spec, u32_testbit, Z.lor_spec, Hbit by lia.
    destruct (Z.ltb_spec i 32) as [|Hhigh]; [reflexivity|].
    rewrite (is_u32_high _ i Hold) in Hbit by lia. discriminate.
  - destruct (rx_run s b rest n) as (level & ->). now exists level.
Qed.

(** *** Reset *)

(** X4: whatever the state before, the three reset phases leave the
    power-on values with the transmit-buffer-empty flag in UARTSR, lower the
    interrupt line and then tell the backend to deliver input. *)
Theorem reset_power_on s0 :
  device_reset s0 =
  (tt,
   {| regs :=
       [0x00000082; 0; 0x00000040; 0; 0; u32 UARTSR_DTFTFF; 0x00000200;
        0x0000FFFF; 0x00000E2C; 0; 0; 0; 0x00006000; 0; 0; 0; 0; 0x00000FFF;
        0; 0; 0] |},
   [SetIrq 0; AcceptInput]).
Proof. reflexivity. Qed.

(** X5: when the transmit flag shares no bit with the two receive flags,
    the acceptance gate is open after a reset. *)
Theorem reset_opens_gate s0 :
  Z.land (u32 UARTSR_DTFTFF) UARTSR_DRFRFE = 0 ->
  Z.land (u32 UARTSR_DTFTFF) UARTSR_RMB = 0 ->
  result (fsl_linflex_can_rx (state_of (device_reset s0))) = 1.
Proof.
  intros Hdrfrfe Hrmb.
  assert (Hsr : reg_get (regs (state_of (device_reset s0))) LINFLEX_UARTSR =
                u32 UARTSR_DTFTFF) by reflexivity.
  rewrite can_rx_run. unfold result. cbn [fst].
  now rewrite Hsr, Hdrfrfe, Hrmb.
Qed.

(** X6: [fsl_linflex_reset_exit] and [fsl_linflex_post_load] change no
    register; both drive the interrupt line once, to the level the register
    state asks for; the exit phase then re-arms the backend and the
    post-load hook returns 0. *)
Theorem reset_exit_and_post_load s version_id :
  (exists level,
      fsl_linflex_reset_exit s = (tt, s, [SetIrq level; AcceptInput]) /\
      (level = 1 <-> irq_condition (regs s)) /\
      (level = 0 <-> ~ irq_condition (regs s))) /\
  fsl_linflex_post_load version_id s =
  (0, s, trace (fsl_linflex_post_load version_id s)) /\
  irq_follows_state (fsl_linflex_post_load version_id s).
Proof.
  destruct (update_irq_run s) as (level & Hrun & Hone & Hzero).
  split; [|split].
  - exists level. split; [|now split].
    unfold fsl_linflex_reset_exit. run. now rewrite Hrun.
  - unfold fsl_linflex_post_load. run. now rewrite Hrun.
  - unfold fsl_linflex_post_load, irq_follows_state. run. rewrite Hrun.
    exists level. cbn. auto.
Qed.


(** *** Reads *)

(** What a read does, register by register. *)
Lemma read_run offset size s :
  fsl_linflex_read offset size s =
  match reg_of_offset offset with
  | Some LINFLEX_LINCR1 =>
      (reg_get (reg_set (regs s) LINFLEX_LINCR1
                  (Z.lor (reg_get (regs s) LINFLEX_LINCR1) 0x80))
         LINFLEX_LINCR1,
       {| regs := reg_set (regs s) LINFLEX_LINCR1
                    (Z.lor (reg_get (regs s) LINFLEX_LINCR1) 0x80) |},
       [])
  | Some LINFLEX_BDRM =>
      (Z.land (reg_get (regs s) LINFLEX_BDRM) 0xFF, s, [])
  | Some r => (reg_get (regs s) r, s, [QemuLog LOG_UNIMP])
  | None => (0, s, [QemuLog LOG_GUEST_ERROR])
  end.
Proof.
  unfold fsl_linflex_read.
  destruct (reg_of_offset offset) as [[]|]; reflexivity.
Qed.

(** X7: a guest read never drives the interrupt line and never calls the
    character backend; it changes no slot other than LINCR1, and that one
    only when LINCR1 is the register read. *)
Theorem read_frame offset size s :
  in_window offset ->
  let r := fsl_linflex_read offset size s in
  irq_levels (trace r) = [] /\
  chr_written (trace r) = [] /\
  ~ In AcceptInput (trace r) /\
  (reg_of_offset offset <> Some LINFLEX_LINCR1 -> state_of r = s) /\
  (forall i : nat,
      regs (state_of r) !! i <> regs s !! i -> i = reg_index LINFLEX_LINCR1).
Proof.
  intros _ r. subst r. rewrite read_run.
  destruct (reg_of_offset offset) as [[]|];
    unfold trace, state_of; cbn [fst snd regs];
    (split; [reflexivity|]); (split; [reflexivity|]);
    (split; [cbn; intuition discriminate|]);
    (split; [intros Hne; first [reflexivity | now destruct Hne]|]);
    intros i Hi; try contradiction.
  destruct (decide (i = reg_index LINFLEX_LINCR1)) as [|Hne];
    [assumption|].
  rewrite reg_set_lookup_ne in Hi by assumption. contradiction.
Qed.

(** X8: reading a register twice in a row returns the same value twice, and
    the second read leaves the state as the first one left it. *)
Theorem read_twice offset size s :
  wf s ->
  in_window offset ->
  let r1 := fsl_linflex_read offset size s in
  let r2 := fsl_linflex_read offset size (state_of r1) in
  result r2 = result r1 /\ state_of r2 = state_of r1.
Proof.
  intros Hs _ r1 r2. subst r1 r2. rewrite !read_run.
  assert (Hlen : (reg_index LINFLEX_LINCR1 < length (regs s))%nat)
    by now apply wf_reg_index.
  destruct (reg_of_offset offset) as [[]|];
    unfold result, state_of; cbn [fst snd regs];
    try (split; reflexivity).
  set (l1 := reg_set (regs s) LINFLEX_LINCR1
               (Z.lor (reg_get (regs s) LINFLEX_LINCR1) 0x80)).
  assert (Hfix : reg_set l1 LINFLEX_LINCR1
                   (Z.lor (reg_get l1 LINFLEX_LINCR1) 0x80) = l1).
  { apply reg_set_same.
    - subst l1. apply reg_set_is_u32, Hs.
    - subst l1. now rewrite reg_set_length.
    - subst l1. rewrite reg_get_set by assumption.
      assert (Hold : is_u32 (reg_get (regs s) LINFLEX_LINCR1))
        by now apply wf_reg_get.
      bitwise. }
  rewrite Hfix. split; reflexivity.
Qed.

(** *** Write then read *)

(** X9: what the guest writes to LINIER is what it reads back, cut to the
    low 16 bits. *)
Theorem linier_write_then_read s offset value size size' :
  wf s ->
  reg_of_offset offset = Some LINFLEX_LINIER ->
  result (fsl_linflex_read offset size'
            (state_of (fsl_linflex_write offset value size s))) =
  Z.land value 0xFFFF.
Proof.
  intros Hs Hreg. rewrite read_run, write_state, Hreg.
  unfold write_switch. run.
  rewrite reg_get_set by now apply wf_reg_index.
  rewrite u32_land_mask by (unfold is_u32; lia).
  apply u32_small, is_u32_land_r. unfold is_u32. lia.
Qed.

(** X10: a value written to LINCR1 reads back masked with 0x0001DF27 and
    with bit 7 set. *)
Theorem lincr1_write_then_read s offset value size size' :
  wf s ->
  reg_of_offset offset = Some LINFLEX_LINCR1 ->
  result (fsl_linflex_read offset size'
            (state_of (fsl_linflex_write offset value size s))) =
  Z.lor (Z.land value 0x0001DF27) 0x80.
Proof.
  intros Hs Hreg. rewrite read_run, Hreg. unfold result. cbn [fst].
  assert (Hwf : wf (state_of (fsl_linflex_write offset value size s)))
    by now apply write_wf.
  rewrite reg_get_set by now apply wf_reg_index.
  assert (Hcr1 : reg_get (regs (state_of (fsl_linflex_write offset value size s)))
                   LINFLEX_LINCR1 = Z.land value 0x0001DF27).
  { rewrite write_state, Hreg. unfold write_switch. run.
    assert (Hlen : forall r, (reg_index r < length (regs s))%nat)
      by (intros r; now apply wf_reg_index).
    conditions; cbn [fst snd regs];
      rewrite ?(reg_get_set_ne _ LINFLEX_LINSR LINFLEX_LINCR1) by discriminate;
      rewrite reg_get_set by apply Hlen; apply u32_lincr1_mask. }
  rewrite Hcr1. apply u32_small, is_u32_lor.
  - apply is_u32_land_r. unfold is_u32. lia.
  - unfold is_u32. lia.
Qed.


(** *** Calls a write makes *)

(** X11: a guest write hands bytes to the character backend only when it
    addresses BDRL, and calls accept-input only when it addresses UARTSR. *)
Theorem write_backend_calls s offset value size :
  in_window offset ->
  let w := fsl_linflex_write offset value size s in
  (chr_written (trace w) <> [] -> reg_of_offset offset = Some LINFLEX_BDRL) /\
  (In AcceptInput (trace w) -> reg_of_offset offset = Some LINFLEX_UARTSR).
Proof.
  intros _ w. subst w. unfold fsl_linflex_write. cbv zeta.
  rewrite bind_trace.
  match goal with
  | |- context [fsl_linflex_update_irq ?s1] =>
      destruct (update_irq_run s1) as (level & -> & _)
  end.
  unfold write_switch.
  destruct (reg_of_offset offset) as [[]|]; run; conditions; cbn;
    split; intros Hcall; try reflexivity; try contradiction;
    repeat match goal with
           | Hor : _ \/ _ |- _ => destruct Hor
           end;
    try discriminate; contradiction.
Qed.

(** *** The invariant of the register array *)


(** *** Interrupts raised by the data paths *)

(** X13: with transmit interrupts enabled, a guest write to BDRL raises the
    interrupt line. *)
Theorem bdrl_write_raises_irq s offset value size :
  wf s ->
  is_u32 UARTSR_DTFTFF -> UARTSR_DTFTFF <> 0 ->
  reg_of_offset offset = Some LINFLEX_BDRL ->
  flag_set (reg_get (regs s) LINFLEX_LINIER) LINIER_DTIE ->
  irq_levels (trace (fsl_linflex_write offset value size s)) = [1].
Proof.
  intros Hs Hflag Hnz Hreg Hdtie.
  assert (Hlen : forall r, (reg_index r < length (regs s))%nat)
    by (intros r; now apply wf_reg_index).
  assert (Hfollow : irq_follows_state (fsl_linflex_write offset value size s)).
  { unfold fsl_linflex_write. cbv zeta.
    apply then_update_irq, write_switch_irq_levels. }
  destruct Hfollow as (level & Hlevels & _ & Hone & _).
  rewrite Hlevels. f_equal. apply Hone. right.
  rewrite write_state, Hreg. unfold write_switch. run.
  rewrite !reg_get_set_ne by discriminate.
  rewrite reg_get_set by (rewrite reg_set_length; apply Hlen).
  split; [exact Hdtie|]. unfold flag_set.
  now rewrite u32_lor_flag.
Qed.

(** X14: with receive interrupts enabled, the delivery of a byte raises the
    interrupt line. *)
Theorem rx_raises_irq s b rest n :
  wf s ->
  is_u32 UARTSR_DRFRFE -> UARTSR_DRFRFE <> 0 ->
  flag_set (reg_get (regs s) LINFLEX_LINIER) LINIER_DRIE ->
  irq_levels (trace (fsl_linflex_rx b rest n s)) = [1].
Proof.
  intros Hs Hflag Hnz Hdrie.
  assert (Hold : is_u32 (reg_get (regs s) LINFLEX_UARTSR))
    by now apply wf_reg_get.
  assert (Hfollow : irq_follows_state (fsl_linflex_rx b rest n s)).
  { unfold fsl_linflex_rx, irq_follows_state. run.
    match goal with
    | |- context [fsl_linflex_update_irq ?s1] =>
        destruct (update_irq_run s1) as (level & -> & Hone & Hzero)
    end.
    exists level. cbn. auto. }
  destruct Hfollow as (level & Hlevels & _ & Hone & _).
  rewrite Hlevels. f_equal. apply Hone. left.
  rewrite rx_uartsr by assumption.
  destruct (rx_run s b rest n) as (lvl & ->).
  unfold state_of. cbn [fst snd regs].
  rewrite !reg_get_set_ne by discriminate.
  split; [exact Hdrie|]. unfold flag_set.
  set (old := reg_get (regs s) LINFLEX_UARTSR) in *.
  replace (Z.land (u32 (Z.lor (u32 (Z.lor old UARTSR_DRFRFE)) UARTSR_RMB))
             UARTSR_DRFRFE) with UARTSR_DRFRFE by (symmetry; bitwise).
  exact Hnz.
Qed.


(** *** Status clearing and the acceptance gate *)

Lemma land_ldiff_disjoint a v m :
  Z.land v m = 0 -> Z.land (Z.ldiff a v) m = Z.land a m.
Proof.
  intros Hvm. apply Z.bits_inj'. intros i Hi.
  assert (Hbit : Z.testbit (Z.land v m) i = false)
    by (rewrite Hvm; apply Z.bits_0).
  rewrite Z.land_spec in Hbit.
  rewrite !Z.land_spec, Z.ldiff_spec.
  destruct (Z.testbit a i), (Z.testbit v i), (Z.testbit m i);
    simpl in *; congruence.
Qed.

Lemma land_ldiff_covered a value f :
  0 <= f < 2 ^ 16 ->
  Z.land value f = f ->
  Z.land (Z.ldiff a (Z.land (u32 value) 0xFFFF)) f = 0.
Proof.
  intros Hf Hcover. apply Z.bits_inj'. intros i Hi.
  assert (Hbit : Z.testbit (Z.land value f) i = Z.testbit f i)
    by now rewrite Hcover.
  rewrite Z.land_spec in Hbit.
  rewrite Z.bits_0, Z.land_spec, Z.ldiff_spec, Z.land_spec, u32_testbit
    by lia.
  change 65535 with (Z.ones 16). rewrite Z.testbit_ones_nonneg by lia.
  destruct (Z.ltb_spec i 16) as [Hlow|Hhigh].
  - replace (i <? 32) with true by (symmetry; apply Z.ltb_lt; lia).
    destruct (Z.testbit a i), (Z.testbit value i), (Z.testbit f i);
      simpl in *; congruence.
  - rewrite (testbit_above f 16 i) by lia. apply andb_false_r.
Qed.

Lemma uartsr_after_write s offset value size :
  wf s ->
  reg_of_offset offset = Some LINFLEX_UARTSR ->
  reg_get (regs (state_of (fsl_linflex_write offset value size s)))
    LINFLEX_UARTSR =
  Z.ldiff (reg_get (regs s) LINFLEX_UARTSR) (Z.land (u32 value) 0xFFFF).
Proof.
  intros Hs Hreg. rewrite uartsr_write_state by assumption.
  rewrite reg_get_set by now apply wf_reg_index.
  apply u32_land_not64. now apply wf_reg_get.
Qed.

(** X15: whenever a guest write to UARTSR calls accept-input, a receive
    flag is still set after the write, so the acceptance gate the backend
    then queries returns 0. *)
Theorem uartsr_resume_finds_gate_shut s offset value size :
  wf s ->
  is_u32 UARTSR_DRFRFE -> is_u32 UARTSR_RMB ->
  reg_of_offset offset = Some LINFLEX_UARTSR ->
  In AcceptInput (trace (fsl_linflex_write offset value size s)) ->
  result (fsl_linflex_can_rx
            (state_of (fsl_linflex_write offset value size s))) = 0.
Proof.
  intros Hs Hdrfrfe Hrmb Hreg Hin.
  apply uartsr_write_resume in Hin; [|assumption].
  destruct Hin as [Hold Hzero].
  assert (Hmask : u32 (Z.lor UARTSR_DRFRFE UARTSR_RMB) =
                  Z.lor UARTSR_DRFRFE UARTSR_RMB)
    by now apply u32_small, is_u32_lor.
  rewrite Hmask in Hold, Hzero.
  rewrite can_rx_run, uartsr_after_write by assumption.
  unfold result. cbn [fst].
  set (new := Z.ldiff (reg_get (regs s) LINFLEX_UARTSR)
                (Z.land (u32 value) 0xFFFF)).
  assert (Hnew : Z.land new (Z.lor UARTSR_DRFRFE UARTSR_RMB) <> 0).
  { subst new. now rewrite land_ldiff_disjoint. }
  rewrite Z.land_lor_distr_r in Hnew.
  destruct (nonzero (Z.land new UARTSR_DRFRFE)) eqn:E1; [reflexivity|].
  destruct (nonzero (Z.land new UARTSR_RMB)) eqn:E2; [reflexivity|].
  apply nonzero_false in E1, E2. rewrite E1, E2 in Hnew. now destruct Hnew.
Qed.

(** X16: a guest write to UARTSR whose value has both receive flags set
    clears them, and the acceptance gate is open afterwards (the flags lie
    in the low 16 bits, the part of the value the write honours). *)
Theorem uartsr_clear_opens_gate s offset value size :
  wf s ->
  0 <= UARTSR_DRFRFE < 2 ^ 16 -> 0 <= UARTSR_RMB < 2 ^ 16 ->
  reg_of_offset offset = Some LINFLEX_UARTSR ->
  Z.land value UARTSR_DRFRFE = UARTSR_DRFRFE ->
  Z.land value UARTSR_RMB = UARTSR_RMB ->
  result (fsl_linflex_can_rx
            (state_of (fsl_linflex_write offset value size s))) = 1.
Proof.
  intros Hs Hdrfrfe Hrmb Hreg Hv1 Hv2.
  rewrite can_rx_run, uartsr_after_write by assumption.
  unfold result. cbn [fst].
  rewrite !land_ldiff_covered by assumption. reflexivity.
Qed.

(** X17: a guest write to LINIER whose low 16 bits are zero disables every
    interrupt source, and the interrupt line is lowered whatever the status
    flags are. *)
Theorem linier_clear_lowers_irq s offset value size :
  wf s ->
  reg_of_offset offset = Some LINFLEX_LINIER ->
  Z.land value 0xFFFF = 0 ->
  irq_levels (trace (fsl_linflex_write offset value size s)) = [0].
Proof.
  intros Hs Hreg Hvalue.
  assert (Hfollow : irq_follows_state (fsl_linflex_write offset value size s)).
  { unfold fsl_linflex_write. cbv zeta.
    apply then_update_irq, write_switch_irq_levels. }
  destruct Hfollow as (level & Hlevels & _ & _ & Hzero).
  rewrite Hlevels. f_equal. apply Hzero.
  rewrite write_state, Hreg. unfold write_switch, irq_condition, flag_set.
  run.
  rewrite !reg_get_set by now apply wf_reg_index.
  rewrite (u32_land_mask value 0xFFFF), Hvalue by (unfold is_u32; lia).
  change (u32 0) with 0. rewrite !Z.land_0_l. tauto.
Qed.


(** *** Bits only a reset clears *)

(** X18: no guest write, whatever register it addresses, clears a bit of
    UARTCR or of LINSR: a bit of either register that is set before the write
    is set after it. *)
Theorem write_keeps_uartcr_and_linsr_bits s offset value size r i :
  wf s ->
  in_window offset ->
  r = LINFLEX_UARTCR \/ r = LINFLEX_LINSR ->
  Z.testbit (reg_get (regs s) r) i = true ->
  Z.testbit (reg_get (regs (state_of (fsl_linflex_write offset value size s)))
               r) i = true.
Proof.
  intros Hs _ Hr Hbit.
  assert (Hlen : forall r0, (reg_index r0 < length (regs s))%nat)
    by (intros r0; now apply wf_reg_index).
  assert (Hold : is_u32 (reg_get (regs s) r)) by now apply wf_reg_get.
  assert (Hi : 0 <= i < 32).
  { destruct (Z.neg_nonneg_cases i) as [Hneg|Hpos].
    - now rewrite Z.testbit_neg_r in Hbit by assumption.
    - destruct (Z.ltb_spec i 32) as [|Hhigh]; [lia|].
      rewrite (is_u32_high _ i Hold) in Hbit by lia. discriminate. }
  assert (Hlt : (i <? 32) = true) by (apply Z.ltb_lt; lia).
  rewrite write_state. unfold write_switch.
  destruct Hr; subst r;
    destruct (reg_of_offset offset) as [[]|]; run; conditions;
    cbn [fst snd regs];
    repeat first
      [ rewrite reg_get_set_ne by discriminate
      | rewrite reg_get_set by (rewrite ?reg_set_length; apply Hlen)
      | rewrite u32_testbit by lia
      | rewrite Z.lor_spec ];
    rewrite ?Hbit, ?Hlt; try reflexivity;
    rewrite ?orb_true_r; reflexivity.
Qed.


End Lifecycle.

(** ** Further runs on concrete inputs *)

Section ConcreteLifecycle.
#[local] Existing Instance linflexd.

Lemma irq_enabled_state_wf : wf irq_enabled_state.
Proof. apply wf_by_evaluation. reflexivity. Qed.

Lemma is_u32_by_evaluation x :
  (0 <=? x) && (x <? 2 ^ 32) = true -> is_u32 x.
Proof.
  intros Hx. apply andb_true_iff in Hx as [Hlo Hhi].
  apply Z.leb_le in Hlo. apply Z.ltb_lt in Hhi. unfold is_u32. lia.
Qed.

Lemma rx_closes_gate_witness :
  wf reset_state /\
  is_u32 UARTSR_DRFRFE /\ is_u32 UARTSR_RMB /\
  (UARTSR_DRFRFE <> 0 \/ UARTSR_RMB <> 0) /\
  result (fsl_linflex_can_rx (state_of (fsl_linflex_rx 0x41 [] 1 reset_state)))
  = 0.
Proof.
  assert (H1 : is_u32 UARTSR_DRFRFE) by (apply is_u32_by_evaluation; reflexivity).
  assert (H2 : is_u32 UARTSR_RMB) by (apply is_u32_by_evaluation; reflexivity).
  assert (H3 : UARTSR_DRFRFE <> 0 \/ UARTSR_RMB <> 0) by (left; discriminate).
  repeat (split; [first [exact reset_state_wf | assumption]|]).
  apply (rx_closes_gate (H := linflexd)); first [exact reset_state_wf | assumption].
Defined.

Lemma rx_then_read_bdrm_witness :
  wf reset_state /\
  reg_of_offset 0x3C = Some LINFLEX_BDRM /\
  let s1 := state_of (fsl_linflex_rx 0x141 [] 1 reset_state) in
  fsl_linflex_read 0x3C 4 s1 = (0x141 mod 2 ^ 8, s1, []).
Proof.
  split; [exact reset_state_wf|]. split; [reflexivity|].
  apply (rx_then_read_bdrm (H := linflexd)); [exact reset_state_wf|reflexivity].
Defined.

Lemma rx_frame_witness :
  wf reset_state /\
  let r := fsl_linflex_rx 0x41 [] 1 reset_state in
  length (regs (state_of r)) = length (regs reset_state) /\
  (forall i : nat,
      regs (state_of r) !! i <> regs reset_state !! i ->
      i = reg_index LINFLEX_BDRM \/ i = reg_index LINFLEX_UARTSR) /\
  (forall i,
      Z.testbit (reg_get (regs reset_state) LINFLEX_UARTSR) i = true ->
      Z.testbit (reg_get (regs (state_of r)) LINFLEX_UARTSR) i = true) /\
  exists level, trace r = [SetIrq level].
Proof.
  split; [exact reset_state_wf|].
  apply (rx_frame (H := linflexd)). exact reset_state_wf.
Defined.

Lemma reset_opens_gate_witness :
  Z.land (u32 UARTSR_DTFTFF) UARTSR_DRFRFE = 0 /\
  Z.land (u32 UARTSR_DTFTFF) UARTSR_RMB = 0 /\
  result (fsl_linflex_can_rx (state_of (device_reset rx_state))) = 1.
Proof.
  split; [reflexivity|]. split; [reflexivity|].
  apply (reset_opens_gate (H := linflexd)); reflexivity.
Defined.

Lemma read_frame_witness :
  in_window 0x00 /\
  let r := fsl_linflex_read 0x00 4 reset_state in
  irq_levels (trace r) = [] /\
  chr_written (trace r) = [] /\
  ~ In AcceptInput (trace r) /\
  (reg_of_offset 0x00 <> Some LINFLEX_LINCR1 -> state_of r = reset_state) /\
  (forall i : nat,
      regs (state_of r) !! i <> regs reset_state !! i ->
      i = reg_index LINFLEX_LINCR1).
Proof.
  split; [unfold in_window; lia|].
  apply read_frame. unfold in_window. lia.
Defined.

Lemma read_twice_witness :
  wf init_state /\
  in_window 0x00 /\
  let r1 := fsl_linflex_read 0x00 4 init_state in
  let r2 := fsl_linflex_read 0x00 4 (state_of r1) in
  result r2 = result r1 /\ state_of r2 = state_of r1.
Proof.
  split; [exact init_state_wf|]. split; [unfold in_window; lia|].
  apply read_twice; [exact init_state_wf|unfold in_window; lia].
Defined.

Lemma linier_write_then_read_witness :
  wf reset_state /\
  reg_of_offset 0x04 = Some LINFLEX_LINIER /\
  result (fsl_linflex_read 0x04 4
            (state_of (fsl_linflex_write 0x04 0x12345678 4 reset_state))) =
  Z.land 0x12345678 0xFFFF.
Proof.
  split; [exact reset_state_wf|]. split; [reflexivity|].
  apply (linier_write_then_read (H := linflexd));
    [exact reset_state_wf|reflexivity].
Defined.

Lemma lincr1_write_then_read_witness :
  wf reset_state /\
  reg_of_offset 0x00 = Some LINFLEX_LINCR1 /\
  result (fsl_linflex_read 0x00 4
            (state_of (fsl_linflex_write 0x00 0xFFFFFF01 4 reset_state))) =
  Z.lor (Z.land 0xFFFFFF01 0x0001DF27) 0x80.
Proof.
  split; [exact reset_state_wf|]. split; [reflexivity|].
  apply (lincr1_write_then_read (H := linflexd));
    [exact reset_state_wf|reflexivity].
Defined.

Lemma write_backend_calls_witness :
  in_window 0x38 /\
  let w := fsl_linflex_write 0x38 0x41 4 reset_state in
  (chr_written (trace w) <> [] -> reg_of_offset 0x38 = Some LINFLEX_BDRL) /\
  (In AcceptInput (trace w) -> reg_of_offset 0x38 = Some LINFLEX_UARTSR).
Proof.
  split; [unfold in_window; lia|].
  apply (write_backend_calls (H := linflexd)). unfold in_window. lia.
Defined.


Lemma bdrl_write_raises_irq_witness :
  wf irq_enabled_state /\
  is_u32 UARTSR_DTFTFF /\ UARTSR_DTFTFF <> 0 /\
  reg_of_offset 0x38 = Some LINFLEX_BDRL /\
  flag_set (reg_get (regs irq_enabled_state) LINFLEX_LINIER) LINIER_DTIE /\
  irq_levels (trace (fsl_linflex_write 0x38 0x41 4 irq_enabled_state)) = [1].
Proof.
  assert (H1 : is_u32 UARTSR_DTFTFF) by (apply is_u32_by_evaluation; reflexivity).
  assert (H2 : UARTSR_DTFTFF <> 0) by discriminate.
  assert (H3 : flag_set (reg_get (regs irq_enabled_state) LINFLEX_LINIER)
                 LINIER_DTIE) by (vm_compute; discriminate).
  split; [exact irq_enabled_state_wf|]. split; [exact H1|].
  split; [exact H2|]. split; [reflexivity|]. split; [exact H3|].
  apply (bdrl_write_raises_irq (H := linflexd));
    first [exact irq_enabled_state_wf | assumption | reflexivity].
Defined.

Lemma rx_raises_irq_witness :
  wf irq_enabled_state /\
  is_u32 UARTSR_DRFRFE /\ UARTSR_DRFRFE <> 0 /\
  flag_set (reg_get (regs irq_enabled_state) LINFLEX_LINIER) LINIER_DRIE /\
  irq_levels (trace (fsl_linflex_rx 0x41 [] 1 irq_enabled_state)) = [1].
Proof.
  assert (H1 : is_u32 UARTSR_DRFRFE) by (apply is_u32_by_evaluation; reflexivity).
  assert (H2 : UARTSR_DRFRFE <> 0) by discriminate.
  assert (H3 : flag_set (reg_get (regs irq_enabled_state) LINFLEX_LINIER)
                 LINIER_DRIE) by (vm_compute; discriminate).
  split; [exact irq_enabled_state_wf|]. split; [exact H1|].
  split; [exact H2|]. split; [exact H3|].
  apply (rx_raises_irq (H := linflexd));
    first [exact irq_enabled_state_wf | assumption].
Defined.

Lemma uartsr_resume_finds_gate_shut_witness :
  wf rx_state /\
  is_u32 UARTSR_DRFRFE /\ is_u32 UARTSR_RMB /\
  reg_of_offset 0x14 = Some LINFLEX_UARTSR /\
  In AcceptInput (trace (fsl_linflex_write 0x14 0x2 4 rx_state)) /\
  result (fsl_linflex_can_rx
            (state_of (fsl_linflex_write 0x14 0x2 4 rx_state))) = 0.
Proof.
  assert (H1 : is_u32 UARTSR_DRFRFE) by (apply is_u32_by_evaluation; reflexivity).
  assert (H2 : is_u32 UARTSR_RMB) by (apply is_u32_by_evaluation; reflexivity).
  assert (H3 : In AcceptInput (trace (fsl_linflex_write 0x14 0x2 4 rx_state)))
    by (left; reflexivity).
  split; [exact rx_state_wf|]. split; [exact H1|]. split; [exact H2|].
  split; [reflexivity|]. split; [exact H3|].
  apply (uartsr_resume_finds_gate_shut (H := linflexd));
    first [exact rx_state_wf | assumption | reflexivity].
Defined.

Lemma uartsr_clear_opens_gate_witness :
  wf rx_state /\
  0 <= UARTSR_DRFRFE < 2 ^ 16 /\ 0 <= UARTSR_RMB < 2 ^ 16 /\
  reg_of_offset 0x14 = Some LINFLEX_UARTSR /\
  Z.land 0x204 UARTSR_DRFRFE = UARTSR_DRFRFE /\
  Z.land 0x204 UARTSR_RMB = UARTSR_RMB /\
  result (fsl_linflex_can_rx
            (state_of (fsl_linflex_write 0x14 0x204 4 rx_state))) = 1.
Proof.
  assert (H1 : 0 <= UARTSR_DRFRFE < 2 ^ 16) by (simpl; lia).
  assert (H2 : 0 <= UARTSR_RMB < 2 ^ 16) by (simpl; lia).
  split; [exact rx_state_wf|]. split; [exact H1|]. split; [exact H2|].
  split; [reflexivity|]. split; [reflexivity|]. split; [reflexivity|].
  apply (uartsr_clear_opens_gate (H := linflexd));
    first [exact rx_state_wf | assumption | reflexivity].
Defined.

Lemma linier_clear_lowers_irq_witness :
  wf irq_enabled_state /\
  reg_of_offset 0x04 = Some LINFLEX_LINIER /\
  Z.land 0x10000 0xFFFF = 0 /\
  irq_levels (trace (fsl_linflex_write 0x04 0x10000 4 irq_enabled_state)) =
  [0].
Proof.
  split; [exact irq_enabled_state_wf|]. split; [reflexivity|].
  split; [reflexivity|].
  apply (linier_clear_lowers_irq (H := linflexd));
    [exact irq_enabled_state_wf|reflexivity|reflexivity].
Defined.

Lemma write_keeps_uartcr_and_linsr_bits_witness :
  wf reset_state /\
  in_window 0x00 /\
  (LINFLEX_LINSR = LINFLEX_UARTCR \/ LINFLEX_LINSR = LINFLEX_LINSR) /\
  Z.testbit (reg_get (regs reset_state) LINFLEX_LINSR) 6 = true /\
  Z.testbit
    (reg_get (regs (state_of (fsl_linflex_write 0x00 0x1 4 reset_state)))
       LINFLEX_LINSR) 6 = true.
Proof.
  assert (Hwin : in_window 0x00) by (unfold in_window; lia).
  split; [exact reset_state_wf|]. split; [exact Hwin|].
  split; [now right|]. split; [reflexivity|].
  apply (write_keeps_uartcr_and_linsr_bits (H := linflexd));
    [exact reset_state_wf|exact Hwin|now right|reflexivity].
Defined.

End ConcreteLifecycle.
